(** * Dyn-X reference-model caches: a shallow embedding

    The development follows the three Python modules of [dynx.runner]:

    - [metric_requirements.py]: the requirement catalogue,
    - [reference_cache.py]: class [ReferenceModelCache] and its module-level
      wrappers,
    - [model_cache.py]: class [UnifiedModelCache] and its module-level
      wrappers.

    Python objects that are shared and mutated (the solved models) live in an
    explicit heap; the caches hold addresses.  A weak reference is an address
    that is dereferenced through the heap, a strong reference is an address
    counted among the collector's roots.  Methods run in a small state and
    exception monad over the pair (cache object, world). *)

From Stdlib Require Import ZArith String List DecimalString Decimal.
From stdpp Require Import gmap strings list fin_maps sorting.

Open Scope string_scope.

(** ** Python values used by the three modules *)

(** Exceptions, by the classes the code tells apart.  [AttributeError] is
    what [hasattr] and failed attribute lookups are defined in terms of;
    [ImportError] is what [get_cached_reference_model] catches;
    [OtherError] is any other class derived from [Exception]; [BaseError] is
    a class derived from [BaseException] alone ([KeyboardInterrupt],
    [SystemExit], [GeneratorExit]), which an [except Exception] clause does
    not catch.  Subclasses count with their class. *)
Inductive exn : Type :=
  | AttributeError (msg : string)
  | ImportError (msg : string)
  | OtherError (cls msg : string)
  | BaseError (cls msg : string).

(** [str(e)] *)
Definition str_exn (e : exn) : string :=
  match e with
  | AttributeError msg => msg
  | ImportError msg => msg
  | OtherError _ msg => msg
  | BaseError _ msg => msg
  end.

(** [isinstance(e, Exception)] *)
Definition is_exception (e : exn) : bool :=
  match e with BaseError _ _ => false | _ => true end.

(** [isinstance(e, ImportError)] *)
Definition is_import_error (e : exn) : bool :=
  match e with ImportError _ => true | _ => false end.

Inductive outcome (A : Type) : Type :=
  | Ret (a : A)
  | Raise (e : exn).
Arguments Ret {A} a.
Arguments Raise {A} e.

(** An attribute slot of a duck-typed object: [None] when the object has no
    such attribute ([hasattr] is [False]), [Some v] when it has one. *)
Definition attr (A : Type) : Type := option A.

Definition hasattr {A} (a : attr A) : bool :=
  match a with Some _ => true | None => false end.

(** [getattr(obj, name, default)] *)
Definition getattr {A} (a : attr A) (dflt : A) : A :=
  match a with Some v => v | None => dflt end.

(** An attribute of an object whose class may define properties or a
    [__getattr__]: the lookup finds nothing ([Absent]), gives a value
    ([Holds]), or raises ([Fails]). *)
Inductive slot (A : Type) : Type :=
  | Absent
  | Holds (v : A)
  | Fails (e : exn).
Arguments Absent {A}.
Arguments Holds {A} v.
Arguments Fails {A} e.

(** [hasattr(obj, name)] calls [getattr(obj, name)]: it is [False] when
    that raises [AttributeError], and lets every other exception through. *)
Definition slot_hasattr {A} (a : slot A) : outcome bool :=
  match a with
  | Absent => Ret false
  | Holds _ => Ret true
  | Fails (AttributeError _) => Ret false
  | Fails e => Raise e
  end.

(** [str(n)] for a Python [int]. *)
Definition str_int (z : Z) : string := NilZero.string_of_int (Z.to_int z).

(** [sorted(l)], by insertion; the keys compared here (ints, strings) are
    totally ordered, so stability is not observable. *)
Fixpoint insert_by {A} (leb : A -> A -> bool) (a : A) (l : list A) : list A :=
  match l with
  | [] => [a]
  | b :: l' => if leb a b then a :: b :: l' else b :: insert_by leb a l'
  end.

Definition sorted_by {A} (leb : A -> A -> bool) (l : list A) : list A :=
  foldr (insert_by leb) [] l.

Definition sorted_ints : list Z -> list Z := sorted_by Z.leb.
Definition sorted_strs : list string -> list string := sorted_by String.leb.

(** [sep.join(parts)] *)
Definition join (sep : string) (parts : list string) : string :=
  String.concat sep parts.

(** A numpy array, as the list of its entries.  The caches never inspect the
    entries: arrays are stored, passed on to the external functions, or
    dropped. *)
Definition ndarray : Type := list Z.

(** ** Logging *)

Inductive level : Type := DEBUG | INFO | WARNING.

Definition LogRecord : Type := (level * string)%type.

(** ** The structure of a solved model, as the trimmer walks it

    [model.periods_list] is a list; [period.stages] and [stage.perches] are
    dicts, iterated in insertion order, hence association lists here.
    Models, periods, stages and perches are plain objects, whose attributes
    are there or not.  The objects below a perch, [perch.sol] and
    [perch.sol._jit], may be synthetic: each attribute that the trimmer
    tests on them is a [slot], and a lookup does the same thing every time
    it is made. *)

(** The object behind [perch.sol._jit].  The trimmer tests [Q], [lambda_]
    and [vlu] with [hasattr], so each of them may be absent, hold a value or
    raise; it never looks at [policy]. *)
Record Jit : Type := mkJit {
  Q : slot (option ndarray);
  lambda_ : slot (option ndarray);
  vlu : slot (option ndarray);
  policy : attr (option ndarray)
}.

(** The object behind [perch.sol].  An ordinary solution has slots that are
    absent or hold a value; a synthetic one may raise on some or on all of
    its attributes ([_jit := Fails e; EGM := Fails e] raises on every
    access, [_jit := Holds j; EGM := Fails e] on [EGM] alone). *)
Record Solution : Type := mkSolution {
  _jit : slot Jit;
  EGM : slot (option ndarray)
}.

Record Perch : Type := mkPerch {
  sol : attr (option Solution)
}.

Record Stage : Type := mkStage {
  perches : attr (list (string * Perch))
}.

Record Period : Type := mkPeriod {
  stages : attr (list (string * Stage))
}.

(** [_bundle_path] and [bundle_path] hold the [str()] of the attribute's
    value, the only way the caches use it. *)
Record Model : Type := mkModel {
  _bundle_path : attr string;
  bundle_path : attr string;
  periods_list : attr (list Period)
}.

(** ** Loading requirements: the dict with keys ['periods_to_load'] and
    ['stages_to_load']; a stage list of [None] means all stages. *)
Record Requirement : Type := mkRequirement {
  periods_to_load : list Z;
  stages_to_load : list (Z * option (list string))
}.

(** ** The runner (the attributes the caches read off it) *)
Record Runner : Type := mkRunner {
  baseline_method : attr string;
  ref_params : attr (option ndarray);
  unpack : attr (ndarray -> outcome (list (string * string)))
}.

(** ** The world outside the cache objects *)

Definition loc : Type := nat.

Definition LoaderCall : Type := (Runner * ndarray * Requirement)%type.

(** [heap]: the model objects not yet reclaimed; a weak reference to [l] is
    live exactly when [l] is in the heap.
    [next_loc]: the address the next new object gets.
    [roots]: objects held strongly by code outside the cache at hand.
    [loader_calls]: the invocations of [load_reference_model], latest first.
    [log]: the records emitted through the module logger, latest first. *)
Record World : Type := mkWorld {
  heap : gmap loc Model;
  next_loc : loc;
  roots : gset loc;
  loader_calls : list LoaderCall;
  log : list LogRecord
}.

Definition loader_invocations (w : World) : nat := length (loader_calls w).

Definition set_heap (h : gmap loc Model) (w : World) : World :=
  {| heap := h; next_loc := next_loc w; roots := roots w;
     loader_calls := loader_calls w; log := log w |}.

Definition emit (r : LogRecord) (w : World) : World :=
  {| heap := heap w; next_loc := next_loc w; roots := roots w;
     loader_calls := loader_calls w; log := r :: log w |}.

Definition record_load (c : LoaderCall) (w : World) : World :=
  {| heap := heap w; next_loc := next_loc w; roots := roots w;
     loader_calls := c :: loader_calls w; log := log w |}.

(** A new object [m] is placed at the next address. *)
Definition alloc (m : Model) (w : World) : loc * World :=
  (next_loc w,
   {| heap := <[next_loc w := m]> (heap w); next_loc := S (next_loc w);
      roots := roots w; loader_calls := loader_calls w; log := log w |}).

(** Calling a weak reference: the referent if it is still alive. *)
Definition deref (ref_weak : loc) (w : World) : option loc :=
  match heap w !! ref_weak with
  | Some _ => Some ref_weak
  | None => None
  end.

(** The values of a dict of strong references, as a set of addresses. *)
Definition referents (d : gmap string loc) : gset loc :=
  list_to_set (map snd (map_to_list d)).

(** [gc.collect()]: only objects held by an outside root, by one of the
    cache's strong references [strong], or by a local of the running frame
    ([frame]) survive. *)
Definition gc_collect (strong : gset loc) (frame : gset loc) (w : World) : World :=
  set_heap (filter (fun kv => kv.1 ∈ roots w ∪ strong ∪ frame) (heap w)) w.

(** ** A state and exception monad *)

Definition M (S A : Type) : Type := S -> outcome A * S.

Definition ret {S A} (a : A) : M S A := fun s => (Ret a, s).

Definition raise {S A} (e : exn) : M S A := fun s => (Raise e, s).

Definition bind {S A B} (c : M S A) (k : A -> M S B) : M S B :=
  fun s =>
    match c s with
    | (Ret a, s') => k a s'
    | (Raise e, s') => (Raise e, s')
    end.

(** [try: c  except E as e: h e], where [catches] tells the instances of
    the class [E]; an exception of another class goes on to the caller. *)
Definition try_except {S A} (catches : exn -> bool) (c : M S A) (h : exn -> M S A)
    : M S A :=
  fun s =>
    match c s with
    | (Ret a, s') => (Ret a, s')
    | (Raise e, s') => if catches e then h e s' else (Raise e, s')
    end.

Declare Scope py_scope.
Delimit Scope py_scope with py.
Notation "x <- c ;; k" := (bind c (fun x => k))
  (at level 100, c at next level, right associativity) : py_scope.
Open Scope py_scope.

Section CacheState.
Context {T : Type}.

Definition St : Type := (T * World)%type.

Definition self_ : M St T := fun s => (Ret (fst s), s).
Definition world_ : M St World := fun s => (Ret (snd s), s).
Definition set_self (f : T -> T) : M St unit := fun s => (Ret tt, (f (fst s), snd s)).
Definition set_world (f : World -> World) : M St unit :=
  fun s => (Ret tt, (fst s, f (snd s))).

Definition logger_info (msg : string) : M St unit := set_world (emit (INFO, msg)).
Definition logger_debug (msg : string) : M St unit := set_world (emit (DEBUG, msg)).
Definition logger_warning (msg : string) : M St unit := set_world (emit (WARNING, msg)).

(** [ref_weak()] *)
Definition call_weak (ref_weak : loc) : M St (option loc) :=
  w <- world_ ;; ret (deref ref_weak w).
End CacheState.
Arguments St : clear implicits.

(** ** metric_requirements.py *)

Module metric_requirements.

(** The value type of the catalogue: (periods needed, stages per period). *)
Definition Entry : Type := (list Z * list (Z * option (list string)))%type.

Definition METRIC_REQUIREMENTS : gmap string Entry :=
  list_to_map [
    ("euler_error", ([0; 1]%Z, [(0%Z, Some ["OWNC"]); (1%Z, None)]));
    ("dev_c_L2", ([0%Z], [(0%Z, Some ["OWNC"])]));
    ("dev_c_Linf", ([0%Z], [(0%Z, Some ["OWNC"])]));
    ("dev_a_L2", ([0%Z], [(0%Z, Some ["OWNC"])]));
    ("dev_a_Linf", ([0%Z], [(0%Z, Some ["OWNC"])]));
    ("dev_v_L2", ([0%Z], [(0%Z, Some ["OWNC"])]));
    ("dev_v_Linf", ([0%Z], [(0%Z, Some ["OWNC"])]));
    ("dev_pol_L2", ([0%Z], [(0%Z, Some ["OWNC"])]));
    ("dev_pol_Linf", ([0%Z], [(0%Z, Some ["OWNC"])]));
    ("plot_egm", ([0%Z], [(0%Z, Some ["OWNC"])]));
    ("plot_policy", ([0%Z], [(0%Z, Some ["TENU"; "OWNH"; "OWNC"; "RNTH"; "RNTC"])]));
    ("plot_value_q", ([0%Z], [(0%Z, Some ["OWNC"])]));
    ("plot_c_comparison", ([0%Z], [(0%Z, Some ["OWNC"])]));
    ("plot_v_comparison", ([0%Z], [(0%Z, Some ["OWNC"])]));
    ("plot_a_comparison", ([0%Z], [(0%Z, Some ["OWNC"])]));
    ("plot_h_comparison", ([0%Z], [(0%Z, Some ["OWNH"])]))
  ].

Definition get_superset_requirements : Entry :=
  ([0; 1]%Z,
   [(0%Z, Some ["OWNC"; "OWNH"; "TENU"; "RNTH"; "RNTC"]); (1%Z, None)]).

(** The accumulators of the loop: [all_periods] is a set, and
    [stages_by_period] maps a period to a set of stage names or to [None]. *)
Definition Acc : Type := (gset Z * gmap Z (option (gset string)))%type.

(** One pass of the inner loop, over [(period, stage_list)]. *)
Definition add_stages (stages_by_period : gmap Z (option (gset string)))
    (item : Z * option (list string)) : gmap Z (option (gset string)) :=
  let '(period, stage_list) := item in
  let d1 :=
    match stages_by_period !! period with
    | None =>
        <[period := match stage_list with Some _ => Some ∅ | None => None end]>
          stages_by_period
    | Some _ => stages_by_period
    end in
  match stage_list, d1 !! period with
  | Some sl, Some (Some cur) => <[period := Some (cur ∪ list_to_set sl)]> d1
  | Some _, _ => d1
  | None, _ => <[period := None]> d1
  end.

(** One pass of the outer loop, over [metric]. *)
Definition add_metric (acc : Acc) (metric : string) : Acc :=
  let '(all_periods, stages_by_period) := acc in
  match METRIC_REQUIREMENTS !! metric with
  | Some (periods, stages) =>
      (all_periods ∪ list_to_set periods, foldl add_stages stages_by_period stages)
  | None => acc
  end.

(** The result is the tuple [(periods_to_load, stages_to_load)]; either
    component can be Python's [None]. *)
Definition get_metric_requirements (metric_names : list string)
    : option (list Z) * option (gmap Z (option (list string))) :=
  match metric_names with
  | [] => (None, None)
  | _ =>
      let '(all_periods, stages_by_period) := foldl add_metric (∅, ∅) metric_names in
      let periods_to_load := sorted_ints (elements all_periods) in
      let stages_to_load :=
        (fun v : option (gset string) =>
           match v with
           | Some stages => Some (sorted_strs (elements stages))
           | None => None
           end) <$> stages_by_period in
      (Some periods_to_load, Some stages_to_load)
  end.

Definition is_comparison_metric (metric_name : string) : bool :=
  String.prefix "dev_" metric_name || String.prefix "plot_" metric_name.

End metric_requirements.

(** ** reference_cache.py *)

Module ReferenceModelCache.

(** The instance attributes set by [__init__]. *)
Record t : Type := mk {
  _cache : gmap string loc;
  _strong_refs : gmap string loc;
  _access_count : gmap string Z
}.

Definition __init__ : t :=
  {| _cache := ∅; _strong_refs := ∅; _access_count := ∅ |}.

(** The names an attribute lookup [self.name] can resolve: those bound on
    the instance by [__init__], and those bound in the class body (lines
    24 to 160 of the module).  The class has no [__getattr__] and no base
    class other than [object], whose attributes are all dunder names. *)
Definition instance_names : list string :=
  ["_cache"; "_strong_refs"; "_access_count"].

Definition class_names : list string :=
  ["__init__"; "get_cache_key"; "_cleanup_model_memory"; "get";
   "clear_strong_refs"; "clear"].

(** The names bound at module level: the text after the class body. *)
Definition module_names : list string :=
  ["logger"; "ReferenceModelCache"; "_reference_cache";
   "get_cached_reference_model"; "clear_reference_cache";
   "release_strong_references"; "get_cache_stats"].

(** The function that the body of [release_strong_references] defines with
    a nested [def] (lines 196 to 214).  It is a local of that function:
    bound neither in the class nor in the module, and never called. *)
Definition _get_superset_requirements : Requirement :=
  {| periods_to_load := [0; 1]%Z;
     stages_to_load :=
       [(0%Z, Some ["OWNC"; "OWNH"; "TENU"; "RNTH"; "RNTC"]); (1%Z, None)] |}.

(** Evaluating [self.name]. *)
Definition getattr_self {S} (name : string) : M S unit :=
  if bool_decide (name ∈ (instance_names ++ class_names)%list) then ret tt
  else raise (AttributeError
    ("'ReferenceModelCache' object has no attribute '" +:+ name +:+ "'")).

(** *** The trimmer *)

(** [if hasattr(o, name): o.name = None], on the slot [name] of [o]: the
    assignment is reached only where the lookup gave a value. *)
Definition clear_attr {A} : M (slot (option A)) unit :=
  fun a =>
    match slot_hasattr a with
    | Ret true => (Ret tt, Holds None)
    | Ret false => (Ret tt, a)
    | Raise e => (Raise e, a)
    end.

(** Running a statement on one attribute of an object. *)
Definition on_Q (c : M (slot (option ndarray)) unit) : M Jit unit :=
  fun j =>
    let '(r, a) := c (Q j) in
    (r, {| Q := a; lambda_ := lambda_ j; vlu := vlu j; policy := policy j |}).

Definition on_lambda_ (c : M (slot (option ndarray)) unit) : M Jit unit :=
  fun j =>
    let '(r, a) := c (lambda_ j) in
    (r, {| Q := Q j; lambda_ := a; vlu := vlu j; policy := policy j |}).

Definition on_vlu (c : M (slot (option ndarray)) unit) : M Jit unit :=
  fun j =>
    let '(r, a) := c (vlu j) in
    (r, {| Q := Q j; lambda_ := lambda_ j; vlu := a; policy := policy j |}).

Definition on_EGM (c : M (slot (option ndarray)) unit) : M Solution unit :=
  fun s => let '(r, a) := c (EGM s) in (r, {| _jit := _jit s; EGM := a |}).

(** Statements on [perch.sol._jit], reached only where [_jit] holds an
    object. *)
Definition on__jit (c : M Jit unit) : M Solution unit :=
  fun s =>
    match _jit s with
    | Holds j => let '(r, j') := c j in (r, {| _jit := Holds j'; EGM := EGM s |})
    | _ => (Ret tt, s)
    end.

(** Lines 74 to 79: the three guarded assignments on [perch.sol._jit]. *)
Definition trim_jit : M Jit unit :=
  _ <- on_Q clear_attr ;;
  _ <- on_lambda_ clear_attr ;;
  on_vlu clear_attr.

(** Lines 72 to 83: the body guarded by [perch.sol is not None]. *)
Definition cleanup_sol : M Solution unit :=
  has_jit <- (fun s => (slot_hasattr (_jit s), s)) ;;
  _ <- (if has_jit then on__jit trim_jit else ret tt) ;;
  on_EGM clear_attr.

(** Lines 69 to 83: the body of the innermost loop, on one perch. *)
Definition cleanup_perch : M Perch unit :=
  fun perch =>
    match sol perch with
    | Some (Some s) =>
        let '(r, s') := cleanup_sol s in (r, {| sol := Some (Some s') |})
    | _ => (Ret tt, perch)
    end.

(** A [for] loop over objects mutated in place: an exception leaves the
    loop at once, and what was changed so far stays changed. *)
Fixpoint for_each {A} (body : M A unit) (l : list A) : outcome unit * list A :=
  match l with
  | [] => (Ret tt, [])
  | a :: rest =>
      match body a with
      | (Ret _, a') => let '(r, rest') := for_each body rest in (r, a' :: rest')
      | (Raise e, a') => (Raise e, a' :: rest)
      end
  end.

(** The loop variable of [.items()] and [.values()]: the body acts on the
    value, the key stays. *)
Definition on_value {K A} (body : M A unit) : M (K * A) unit :=
  fun kv => let '(r, a') := body (snd kv) in (r, (fst kv, a')).

(** [for perch_name, perch in getattr(stage, 'perches', {}).items()] *)
Definition cleanup_stage : M Stage unit :=
  fun stage =>
    match perches stage with
    | Some ps =>
        let '(r, ps') := for_each (on_value cleanup_perch) ps in
        (r, {| perches := Some ps' |})
    | None => (Ret tt, stage)
    end.

(** [for stage in getattr(period, 'stages', {}).values()] *)
Definition cleanup_period : M Period unit :=
  fun period =>
    match stages period with
    | Some ss =>
        let '(r, ss') := for_each (on_value cleanup_stage) ss in
        (r, {| stages := Some ss' |})
    | None => (Ret tt, period)
    end.

(** [for period in getattr(model, 'periods_list', [])] *)
Definition cleanup_model : M Model unit :=
  fun model =>
    match periods_list model with
    | Some ps =>
        let '(r, ps') := for_each cleanup_period ps in
        (r, {| _bundle_path := _bundle_path model; bundle_path := bundle_path model;
               periods_list := Some ps' |})
    | None => (Ret tt, model)
    end.

(** Running a computation on the object at address [l], in place. *)
Definition mutate (l : loc) (c : M Model unit) : M (St t) unit :=
  fun s =>
    match heap (snd s) !! l with
    | Some m =>
        let '(r, m') := c m in
        (r, (fst s, set_heap (<[l := m']> (heap (snd s))) (snd s)))
    | None => (Ret tt, s)
    end.

Definition gc_collect_ (frame : gset loc) : M (St t) unit :=
  fun s => (Ret tt, (fst s, gc_collect (referents (_strong_refs (fst s))) frame (snd s))).

Definition _cleanup_model_memory (model : option loc) : M (St t) unit :=
  match model with
  | None => ret tt
  | Some l =>
      try_except is_exception
        (_ <- mutate l cleanup_model ;; gc_collect_ {[l]})
        (fun e => logger_warning ("Error during model cleanup: " +:+ str_exn e))
  end.

Section WithReferenceUtils.
(** The functions of [dynx.runner.reference_utils], and the digest used
    by the fallback keys. *)
Variable ref_bundle_path : Runner -> ndarray -> option string.
Variable load_reference_model :
  Runner -> ndarray -> Requirement -> outcome (option Model).
(** [hashlib.md5(pickle.dumps(v, protocol=5)).hexdigest()] *)
Variable pickle_md5_hexdigest : ndarray -> string.

Definition get_cache_key (runner : Runner) (x : ndarray)
    (requirements : option Requirement) : string :=
  let key :=
    match ref_bundle_path runner x with
    | Some ref_path => ref_path
    | None =>
        match ref_params runner with
        | Some (Some rp) => "ref_" +:+ substring 0 16 (pickle_md5_hexdigest rp)
        | _ => "ref_fallback_" +:+ substring 0 16 (pickle_md5_hexdigest x)
        end
    end in
  key +:+ "_superset_p0-1".

(** The call [_load_reference_model(runner, x, requirements)]: the
    invocation is recorded, and a model that comes back is a new object. *)
Definition call_loader (runner : Runner) (x : ndarray) (requirements : Requirement)
    : M (St t) (option loc) :=
  _ <- set_world (record_load (runner, x, requirements)) ;;
  match load_reference_model runner x requirements with
  | Raise e => raise e
  | Ret None => ret None
  | Ret (Some m) =>
      fun s => let '(l, w') := alloc m (snd s) in (Ret (Some l), (fst s, w'))
  end.

Definition bump (cache_key : string) (c : t) : t :=
  {| _cache := _cache c; _strong_refs := _strong_refs c;
     _access_count :=
       <[cache_key := (default 0 (_access_count c !! cache_key) + 1)%Z]>
         (_access_count c) |}.

Definition forget (cache_key : string) (c : t) : t :=
  {| _cache := delete cache_key (_cache c); _strong_refs := _strong_refs c;
     _access_count := delete cache_key (_access_count c) |}.

Definition store (cache_key : string) (model : loc) (c : t) : t :=
  {| _cache := <[cache_key := model]> (_cache c);
     _strong_refs := <[cache_key := model]> (_strong_refs c);
     _access_count := <[cache_key := 1%Z]> (_access_count c) |}.

(** [params.get(key, dflt)] on the dict returned by [runner.unpack]. *)
Fixpoint dict_get (d : list (string * string)) (key dflt : string) : string :=
  match d with
  | [] => dflt
  | (k, v) :: d' => if String.eqb k key then v else dict_get d' key dflt
  end.

(** Lines 107 to 145 of [get]: what follows the first statement. *)
Definition get_from (superset_requirements : Requirement)
    (runner : Runner) (x : ndarray) (cleanup_for_metrics : bool)
    : M (St t) (option loc) :=
  let cache_key := get_cache_key runner x (Some superset_requirements) in
  self <- self_ ;;
  hit <-
    match _cache self !! cache_key with
    | Some ref_weak =>
        model <- call_weak ref_weak ;;
        match model with
        | Some m =>
            _ <- logger_info ("Using cached reference model for " +:+ cache_key) ;;
            _ <- set_self (bump cache_key) ;;
            _ <- match unpack runner with
                 | Some f =>
                     match f x with
                     | Ret params =>
                         logger_info
                           ("  Fast method '"
                            +:+ dict_get params "master.methods.upper_envelope" "unknown"
                            +:+ "' using cached reference model")
                     | Raise e => raise e
                     end
                 | None => ret tt
                 end ;;
            ret (Some m)
        | None =>
            _ <- set_self (forget cache_key) ;;
            ret None
        end
    | None => ret None
    end ;;
  match hit with
  | Some m => ret (Some m)
  | None =>
      _ <- logger_info ("Loading reference model for " +:+ cache_key
                        +:+ " with superset requirements") ;;
      model <- call_loader runner x superset_requirements ;;
      match model with
      | Some m =>
          _ <- (if cleanup_for_metrics
                then (_ <- logger_info "Cleaning up reference model memory for metrics" ;;
                      _cleanup_model_memory (Some m))
                else ret tt) ;;
          _ <- set_self (store cache_key m) ;;
          ret (Some m)
      | None => ret None
      end
  end.

(** [get]: the first statement evaluates [self._get_superset_requirements]
    and calls the result. *)
Definition get (runner : Runner) (x : ndarray)
    (metric_requirements : option Requirement) (cleanup_for_metrics : bool)
    : M (St t) (option loc) :=
  _ <- getattr_self "_get_superset_requirements" ;;
  get_from _get_superset_requirements runner x cleanup_for_metrics.

Definition clear_strong_refs : M (St t) unit :=
  self <- self_ ;;
  _ <- logger_info ("Clearing " +:+ str_int (Z.of_nat (size (_strong_refs self)))
                    +:+ " strong references") ;;
  _ <- set_world (fun w =>
         foldl (fun w kv => emit (DEBUG, "  " +:+ fst kv +:+ ": accessed "
                                           +:+ str_int (snd kv) +:+ " times") w)
               w (map_to_list (_access_count self))) ;;
  _ <- set_self (fun c => {| _cache := _cache c; _strong_refs := ∅;
                             _access_count := _access_count c |}) ;;
  gc_collect_ ∅.

Definition clear : M (St t) unit :=
  _ <- set_self (fun _ => {| _cache := ∅; _strong_refs := ∅; _access_count := ∅ |}) ;;
  gc_collect_ ∅.

(** *** Module-level functions, acting on the global [_reference_cache] *)

Definition clear_reference_cache : M (St t) unit := clear.

(** The body calls [clear_strong_refs] and then defines the local
    [_get_superset_requirements], which has no effect. *)
Definition release_strong_references : M (St t) unit := clear_strong_refs.

Record Stats : Type := mkStats {
  cached_models : nat;
  strong_refs : nat;
  access_counts : gmap string Z
}.

Definition get_cache_stats : M (St t) Stats :=
  self <- self_ ;;
  ret {| cached_models := size (_cache self);
         strong_refs := size (_strong_refs self);
         access_counts := _access_count self |}.
End WithReferenceUtils.

End ReferenceModelCache.

(** ** model_cache.py *)

Module UnifiedModelCache.

Record t : Type := mk {
  _cache : gmap string loc;
  _strong_refs : gmap string loc;
  _access_count : gmap string Z;
  _method_to_model : gmap string string
}.

Definition __init__ : t :=
  {| _cache := ∅; _strong_refs := ∅; _access_count := ∅; _method_to_model := ∅ |}.

Definition get_model_cache_key (model_id : string) (periods : option (list Z)) : string :=
  match periods with
  | None => model_id +:+ "_full"
  | Some ps => model_id +:+ "_p" +:+ join "-" (map str_int (sorted_ints ps))
  end.

Definition set_weak (cache_key : string) (model : loc) (c : t) : t :=
  {| _cache := <[cache_key := model]> (_cache c); _strong_refs := _strong_refs c;
     _access_count := _access_count c; _method_to_model := _method_to_model c |}.

Definition set_strong (cache_key : string) (model : loc) (c : t) : t :=
  {| _cache := _cache c; _strong_refs := <[cache_key := model]> (_strong_refs c);
     _access_count := _access_count c; _method_to_model := _method_to_model c |}.

Definition set_count (cache_key : string) (n : Z) (c : t) : t :=
  {| _cache := _cache c; _strong_refs := _strong_refs c;
     _access_count := <[cache_key := n]> (_access_count c);
     _method_to_model := _method_to_model c |}.

Definition set_method (method cache_key : string) (c : t) : t :=
  {| _cache := _cache c; _strong_refs := _strong_refs c;
     _access_count := _access_count c;
     _method_to_model := <[method := cache_key]> (_method_to_model c) |}.

(** [self._access_count[k] = self._access_count.get(k, 0) + 1] *)
Definition bump (cache_key : string) (c : t) : t :=
  set_count cache_key (default 0 (_access_count c !! cache_key) + 1)%Z c.

(** The three assignments that cache a model: weak reference, strong
    reference, access count 1. *)
Definition store (cache_key : string) (model : loc) (c : t) : t :=
  set_count cache_key 1%Z (set_strong cache_key model (set_weak cache_key model c)).

(** The identity of a registered model: [str(model._bundle_path)], else
    [str(model.bundle_path)], else the method's name with [_bundle]. *)
Definition model_id_of (method : string) (m : option Model) : string :=
  match m ≫= _bundle_path with
  | Some p => p
  | None =>
      match m ≫= bundle_path with
      | Some p => p
      | None => method +:+ "_bundle"
      end
  end.

Definition register_method_model (method : string) (model : loc)
    (periods : option (list Z)) : M (St t) unit :=
  w <- world_ ;;
  let model_id := model_id_of method (heap w !! model) in
  let cache_key := get_model_cache_key model_id periods in
  _ <- set_self (set_weak cache_key model) ;;
  _ <- set_self (set_strong cache_key model) ;;
  _ <- set_self (set_count cache_key 1%Z) ;;
  _ <- set_self (set_method method cache_key) ;;
  _ <- logger_info ("Registered model for method '" +:+ method
                    +:+ "' with cache key '" +:+ cache_key +:+ "'") ;;
  if bool_decide (periods = Some [0; 1]%Z) || bool_decide (periods = None)
  then
    let superset_key :=
      get_model_cache_key model_id (Some [0; 1]%Z) +:+ "_superset_p0-1" in
    _ <- set_self (set_weak superset_key model) ;;
    logger_info ("Also registered as superset reference with key '"
                 +:+ superset_key +:+ "'")
  else ret tt.

(** The block that occurs twice in [get_reference_model] (lines 115 to 121
    and 129 to 135): if [cache_key] is in [_cache] and its weak reference is
    live, log [msg], count the access and give the model. *)
Definition cached (cache_key msg : string) : M (St t) (option loc) :=
  self <- self_ ;;
  match _cache self !! cache_key with
  | Some ref_weak =>
      model <- call_weak ref_weak ;;
      match model with
      | Some m =>
          _ <- logger_info msg ;;
          _ <- set_self (bump cache_key) ;;
          ret (Some m)
      | None => ret None
      end
  | None => ret None
  end.

Definition superset_requirements : Requirement :=
  {| periods_to_load := [0; 1]%Z;
     stages_to_load :=
       [(0%Z, Some ["OWNC"; "OWNH"; "TENU"; "RNTH"; "RNTC"]); (1%Z, None)] |}.

(** The key of the superset entry for a reference bundle path. *)
Definition superset_key_of (ref_path : string) : string :=
  get_model_cache_key ref_path (Some [0; 1]%Z) +:+ "_superset_p0-1".

Section WithReferenceUtils.
(** The functions of [dynx.runner.reference_utils]. *)
Variable ref_bundle_path : Runner -> ndarray -> option string.
Variable load_reference_model :
  Runner -> ndarray -> Requirement -> outcome (option Model).

(** The call [load_reference_model(runner, x, requirements)]: the
    invocation is recorded, and a model that comes back is a new object. *)
Definition call_loader (runner : Runner) (x : ndarray) (requirements : Requirement)
    : M (St t) (option loc) :=
  _ <- set_world (record_load (runner, x, requirements)) ;;
  match load_reference_model runner x requirements with
  | Raise e => raise e
  | Ret None => ret None
  | Ret (Some m) =>
      fun s => let '(l, w') := alloc m (snd s) in (Ret (Some l), (fst s, w'))
  end.

Definition get_reference_model (runner : Runner) (x : ndarray)
    (requirements : option Requirement) : M (St t) (option loc) :=
  let baseline_method := getattr (baseline_method runner) "VFI_HD_GRID" in
  self <- self_ ;;
  from_method <-
    match _method_to_model self !! baseline_method with
    | Some cache_key =>
        cached cache_key
          ("Using baseline model '" +:+ baseline_method
           +:+ "' as reference (from method cache)")
    | None => ret None
    end ;;
  match from_method with
  | Some m => ret (Some m)
  | None =>
      let ref_path := ref_bundle_path runner x in
      from_path <-
        match ref_path with
        | Some p =>
            let cache_key := superset_key_of p in
            cached cache_key
              ("Using cached reference model with key '" +:+ cache_key +:+ "'")
        | None => ret None
        end ;;
      match from_path with
      | Some m => ret (Some m)
      | None =>
          _ <- logger_info "Reference model not in cache, loading..." ;;
          model <- call_loader runner x superset_requirements ;;
          match model, ref_path with
          | Some m, Some p =>
              _ <- set_self (store (superset_key_of p) m) ;;
              ret (Some m)
          | _, _ => ret model
          end
      end
  end.

Definition gc_collect_ (frame : gset loc) : M (St t) unit :=
  fun s => (Ret tt, (fst s, gc_collect (referents (_strong_refs (fst s))) frame (snd s))).

Definition clear_strong_refs : M (St t) unit :=
  self <- self_ ;;
  _ <- logger_info ("Clearing " +:+ str_int (Z.of_nat (size (_strong_refs self)))
                    +:+ " strong references") ;;
  _ <- set_world (fun w =>
         foldl (fun w kv => emit (DEBUG, "  " +:+ fst kv +:+ ": accessed "
                                           +:+ str_int (snd kv) +:+ " times") w)
               w (map_to_list (_access_count self))) ;;
  _ <- set_self (fun c => {| _cache := _cache c; _strong_refs := ∅;
                             _access_count := _access_count c;
                             _method_to_model := _method_to_model c |}) ;;
  gc_collect_ ∅.

Definition clear : M (St t) unit :=
  _ <- set_self (fun _ => __init__) ;;
  gc_collect_ ∅.

Record Stats : Type := mkStats {
  cached_models : nat;
  strong_refs : nat;
  method_models : nat;
  access_counts : gmap string Z
}.

Definition get_stats : M (St t) Stats :=
  self <- self_ ;;
  ret {| cached_models := size (_cache self);
         strong_refs := size (_strong_refs self);
         method_models := size (_method_to_model self);
         access_counts := _access_count self |}.

(** *** Module-level functions, acting on the global [_unified_cache] *)

Definition register_baseline_model (method : string) (model : loc)
    (periods : option (list Z)) : M (St t) unit :=
  register_method_model method model periods.

Definition get_cached_reference_model (runner : Runner) (x : ndarray)
    (metric_requirements : option Requirement) : M (St t) (option loc) :=
  get_reference_model runner x metric_requirements.

Definition clear_model_cache : M (St t) unit := clear.

Definition release_model_references : M (St t) unit := clear_strong_refs.

Definition get_cache_stats : M (St t) Stats := get_stats.
End WithReferenceUtils.

End UnifiedModelCache.

(** ** [reference_cache.get_cached_reference_model]

    The function works on the two module globals, [_reference_cache] of
    [reference_cache] and [_unified_cache] of [model_cache]. *)
Record Globals : Type := mkGlobals {
  _reference_cache : ReferenceModelCache.t;
  _unified_cache : UnifiedModelCache.t
}.

Definition on_reference_cache {A} (c : M (St ReferenceModelCache.t) A)
    : M (St Globals) A :=
  fun s =>
    let '(r, (c', w')) := c (_reference_cache (fst s), snd s) in
    (r, ({| _reference_cache := c'; _unified_cache := _unified_cache (fst s) |}, w')).

Definition on_unified_cache {A} (c : M (St UnifiedModelCache.t) A)
    : M (St Globals) A :=
  fun s =>
    let '(r, (c', w')) := c (_unified_cache (fst s), snd s) in
    (r, ({| _reference_cache := _reference_cache (fst s); _unified_cache := c' |}, w')).

Section GetCachedReferenceModel.
Variable ref_bundle_path : Runner -> ndarray -> option string.
Variable load_reference_model :
  Runner -> ndarray -> Requirement -> outcome (option Model).
Variable pickle_md5_hexdigest : ndarray -> string.

(** Lines 177 to 182.  The import of [model_cache], a module of the same
    package, succeeds; the [try] also encloses the call, so an [ImportError]
    raised inside the unified lookup leads to the local cache, with what the
    lookup did before it staying done. *)
Definition reference_cache_get_cached_reference_model (runner : Runner) (x : ndarray)
    (metric_requirements : option Requirement) : M (St Globals) (option loc) :=
  try_except is_import_error
    (on_unified_cache
       (UnifiedModelCache.get_cached_reference_model ref_bundle_path
          load_reference_model runner x metric_requirements))
    (fun _ =>
       on_reference_cache
         (ReferenceModelCache.get ref_bundle_path load_reference_model
            pickle_md5_hexdigest runner x metric_requirements true)).
End GetCachedReferenceModel.

(** ** Observers used in the statements *)

Module Obs.
Import UnifiedModelCache.

(** The live model, if any, behind the weak reference stored under [k]. *)
Definition live_entry (c : t) (w : World) (k : string) : option loc :=
  _cache c !! k ≫= fun l => deref l w.

(** The live model, if any, registered for the runner's baseline method. *)
Definition baseline_entry (c : t) (w : World) (runner : Runner) : option loc :=
  _method_to_model c !! getattr (baseline_method runner) "VFI_HD_GRID"
    ≫= live_entry c w.

(** A model is cached under [k]: weak reference, strong reference and
    access count 1. *)
Definition cached_once (c : t) (k : string) (m : loc) : Prop :=
  _cache c !! k = Some m /\ _strong_refs c !! k = Some m
  /\ _access_count c !! k = Some 1%Z.

(** The world after the loader has been called and has returned [mv]. *)
Definition loaded (runner : Runner) (x : ndarray) (mv : Model) (w : World) : World :=
  snd (alloc mv (record_load (runner, x, superset_requirements)
                   (emit (INFO, "Reference model not in cache, loading...") w))).

(** The world after the loader has been called without giving a model. *)
Definition tried (runner : Runner) (x : ndarray) (w : World) : World :=
  record_load (runner, x, superset_requirements)
    (emit (INFO, "Reference model not in cache, loading...") w).

(** The live model, if any, under the superset key of the runner's bundle
    path. *)
Definition path_entry (ref_bundle_path : Runner -> ndarray -> option string)
    (runner : Runner) (x : ndarray) (c : t) (w : World) : option loc :=
  match ref_bundle_path runner x with
  | Some p => live_entry c w (superset_key_of p)
  | None => None
  end.

(** The empty requirement: no periods, no stages. *)
Definition empty_requirement : option (list Z) * option (gmap Z (option (list string))) :=
  (Some [], Some ∅).

(** The string has no underscore in it. *)
Fixpoint no_underscore (s : string) : bool :=
  match s with
  | EmptyString => true
  | String ch s' => negb (String.eqb (String ch EmptyString) "_") && no_underscore s'
  end.
End Obs.

(** ** Observers of a model's perches *)

Module Trim.

(** The perches of a model, in the order in which the trimmer visits them. *)
Definition perches_of_stage (stage : Stage) : list Perch :=
  map snd (getattr (perches stage) []).

Definition perches_of_period (period : Period) : list Perch :=
  concat (map (fun kv => perches_of_stage (snd kv)) (getattr (stages period) [])).

Definition perches_of_model (model : Model) : list Perch :=
  concat (map perches_of_period (getattr (periods_list model) [])).

(** The exception, if any, that a test [hasattr(obj, name)] lets through:
    one raised by the lookup that is not an [AttributeError]. *)
Definition escaping {A} (a : slot A) : option exn :=
  match a with
  | Fails (AttributeError _) => None
  | Fails e => Some e
  | _ => None
  end.

(** The array-valued attributes below a perch's solution that the trimmer
    can get to, in the order in which it tests them: [Q], [lambda_] and
    [vlu] of the object under [_jit], where [_jit] holds one, then [EGM]. *)
Definition sol_arrays (s : Solution) : list (slot (option ndarray)) :=
  (match _jit s with Holds j => [Q j; lambda_ j; vlu j] | _ => [] end ++ [EGM s])%list.

Definition perch_arrays (perch : Perch) : list (slot (option ndarray)) :=
  match sol perch with
  | Some (Some s) => sol_arrays s
  | _ => []
  end.

(** The first exception in a sequence of test results. *)
Fixpoint first_raise (tests : list (option exn)) : option exn :=
  match tests with
  | [] => None
  | Some e :: _ => Some e
  | None :: rest => first_raise rest
  end.

(** The number of tests that pass before the first exception. *)
Fixpoint quiet_prefix (tests : list (option exn)) : nat :=
  match tests with
  | None :: rest => S (quiet_prefix rest)
  | _ => 0
  end.

(** The exception, if any, that the attribute tests on a perch's solution
    let through: that of the first test, in the order [_jit], [Q],
    [lambda_], [vlu], [EGM], whose lookup raises something other than an
    [AttributeError]. *)
Definition raises (perch : Perch) : option exn :=
  match sol perch with
  | Some (Some s) => first_raise (escaping (_jit s) :: map escaping (perch_arrays perch))
  | _ => None
  end.

(** How many of the perch's arrays have been tested without an exception
    when the first exception comes: none if it comes from [_jit]. *)
Definition arrays_passed (perch : Perch) : nat :=
  match sol perch with
  | Some (Some s) =>
      match escaping (_jit s) with
      | Some _ => 0
      | None => quiet_prefix (map escaping (perch_arrays perch))
      end
  | _ => 0
  end.

Definition well_behaved (perch : Perch) : bool :=
  match raises perch with Some _ => false | None => true end.

(** No attribute test on a solution object of the model lets an exception
    through. *)
Definition conforming (model : Model) : bool :=
  forallb well_behaved (perches_of_model model).

(** The first exception, if any, that the walk over the model meets. *)
Definition model_raises (model : Model) : option exn :=
  first_raise (map raises (perches_of_model model)).

(** An array-valued attribute holds no array: it is absent, or [None], or
    its lookup raises. *)
Definition cleared {A} (a : slot (option A)) : bool :=
  match a with Holds (Some _) => false | _ => true end.

Definition perch_trimmed (perch : Perch) : bool :=
  forallb cleared (perch_arrays perch).

(** The policy attribute of a perch's solution, where there is one. *)
Definition perch_policy (perch : Perch) : attr (option ndarray) :=
  match sol perch with
  | Some (Some s) => match _jit s with Holds j => policy j | _ => None end
  | _ => None
  end.

(** What a lookup does, whatever value it gives. *)
Definition kind {A} (a : slot A) : slot unit :=
  match a with
  | Absent => Absent
  | Holds _ => Holds tt
  | Fails e => Fails e
  end.

(** What the lookup of each attribute the trimmer tests does on a perch's
    solution: [_jit], then the arrays. *)
Definition perch_shape (perch : Perch) : list (slot unit) :=
  match sol perch with
  | Some (Some s) => kind (_jit s) :: map kind (perch_arrays perch)
  | _ => []
  end.

End Trim.

(** ** Sample data *)

Module Sample.

Definition runner_M : Runner :=
  {| baseline_method := Some "M"; ref_params := None; unpack := None |}.

Definition runner_default : Runner :=
  {| baseline_method := None; ref_params := None; unpack := None |}.

Definition x0 : ndarray := [1; 2]%Z.
Definition x1 : ndarray := [3; 4]%Z.

Definition path_resolves (_ : Runner) (_ : ndarray) : option string :=
  Some "/bundles/ref".

Definition path_absent (_ : Runner) (_ : ndarray) : option string := None.

Definition digest (_ : ndarray) : string := "0123456789abcdef0123456789abcdef".

Definition full_jit : Jit :=
  {| Q := Holds (Some [7]%Z); lambda_ := Holds (Some [8]%Z);
     vlu := Holds (Some [9]%Z); policy := Some (Some [5; 6]%Z) |}.

Definition full_sol : Solution :=
  {| _jit := Holds full_jit; EGM := Holds (Some [4]%Z) |}.

Definition good_perch : Perch := {| sol := Some (Some full_sol) |}.

(** A synthetic solution that raises [RuntimeError] on every attribute
    access. *)
Definition bad_perch : Perch :=
  {| sol := Some (Some {| _jit := Fails (OtherError "RuntimeError" "boom");
                          EGM := Fails (OtherError "RuntimeError" "boom") |}) |}.

Definition model_of (ps : list (string * Perch)) : Model :=
  {| _bundle_path := None; bundle_path := None;
     periods_list :=
       Some [ {| stages := Some [("OWNC", {| perches := Some ps |})] |} ] |}.

Definition good_model : Model :=
  model_of [("arvl", good_perch); ("dcsn", good_perch)].

(** The raising perch comes first, an ordinary one after it. *)
Definition bad_first_model : Model :=
  model_of [("arvl", bad_perch); ("dcsn", good_perch)].

(** An ordinary perch comes first, the raising one after it. *)
Definition bad_last_model : Model :=
  model_of [("arvl", good_perch); ("dcsn", bad_perch)].

Definition loader_good (_ : Runner) (_ : ndarray) (_ : Requirement)
    : outcome (option Model) := Ret (Some good_model).

Definition world0 : World :=
  {| heap := ∅; next_loc := 0; roots := ∅; loader_calls := []; log := [] |}.

(** A world with one live model at address 0, held by its caller. *)
Definition world1 : World :=
  {| heap := {[ 0 := good_model ]}; next_loc := 1; roots := {[ 0 ]};
     loader_calls := []; log := [] |}.

(** A world with two live models, at addresses 0 and 1. *)
Definition world2 : World :=
  {| heap := <[ 1 := good_model ]> {[ 0 := good_model ]}; next_loc := 2;
     roots := {[ 0; 1 ]}; loader_calls := []; log := [] |}.


(** The state reached from an empty cache by the statements of
    [ReferenceModelCache.get] that follow its first one: one load, the model
    trimmed and stored. *)
Definition after_first_load : St ReferenceModelCache.t :=
  snd (ReferenceModelCache.get_from path_resolves loader_good
         digest ReferenceModelCache._get_superset_requirements
         runner_default x0 true
         (ReferenceModelCache.__init__, world0)).


(** Worlds holding one model at address 0, for the trimmer. *)
Definition world_of (m : Model) : World :=
  {| heap := {[ 0 := m ]}; next_loc := 1; roots := ∅; loader_calls := []; log := [] |}.

(** An empty unified cache in a world where the caller holds one model. *)
Definition unified0 : St UnifiedModelCache.t :=
  (UnifiedModelCache.__init__, world1).

(** ... after a first reference lookup, which loads a new model ... *)
Definition unified1 : St UnifiedModelCache.t :=
  snd (UnifiedModelCache.get_reference_model path_resolves loader_good
         runner_M x0 None unified0).

(** ... and after the caller's model has then been registered for "M". *)
Definition unified2 : St UnifiedModelCache.t :=
  snd (UnifiedModelCache.register_method_model "M" 0 (Some [0; 1]%Z) unified1).

(** The caller's model registered for "M" in an empty cache. *)
Definition registered : St UnifiedModelCache.t :=
  snd (UnifiedModelCache.register_method_model "M" 0 (Some [0; 1]%Z) unified0).

End Sample.

(** Unfolding the monad's operations. *)
Ltac run := unfold bind, ret, raise, self_, world_, set_self, set_world,
              call_weak, logger_info; simpl.

(** ** The caller's side of the lifecycle *)

(** Code outside the cache keeps a reference to the object at [l]: the
    object becomes one of the collector's roots. *)
Definition caller_keeps (l : loc) (w : World) : World :=
  {| heap := heap w; next_loc := next_loc w; roots := {[ l ]} ∪ roots w;
     loader_calls := loader_calls w; log := log w |}.

(** ** The names in a model's structure *)

Module Shape.

(** The perch names of a stage, the stage names of a period with the perch
    names below each, and so on up to the model with its bundle paths: what
    is left of a model when the solution objects are taken out. *)
Definition stage_skeleton (stage : Stage) : attr (list string) :=
  map fst <$> perches stage.

Definition period_skeleton (period : Period) : attr (list (string * attr (list string))) :=
  map (fun kv => (fst kv, stage_skeleton (snd kv))) <$> stages period.

Definition model_skeleton (model : Model)
    : attr string * attr string * attr (list (attr (list (string * attr (list string))))) :=
  (_bundle_path model, bundle_path model, map period_skeleton <$> periods_list model).

End Shape.

(** ** Observers for the requirement catalogue *)

Module Cover.
Import metric_requirements.

(** What one pass of the inner loop leaves under a period: the entry [o]
    that was there, if any, joined with the stage list [sl] of the item;
    [None] (all stages) absorbs every set. *)
Definition join_stages (o : option (option (gset string))) (sl : option (list string))
    : option (gset string) :=
  match sl with
  | None => None
  | Some l =>
      match o with
      | None => Some (∅ ∪ list_to_set l)
      | Some (Some cur) => Some (cur ∪ list_to_set l)
      | Some None => None
      end
  end.

(** The stage list [v] asks for no more than [sv]; [None] is all stages. *)
Definition within (v sv : option (list string)) : Prop :=
  match sv with
  | None => True
  | Some sl => match v with Some l => forall x, x ∈ l -> x ∈ sl | None => False end
  end.

(** The requirement [r] is a pair of a period list and a stage map, and asks
    for no more than the entry [sup]. *)
Definition covered_by (sup : Entry)
    (r : option (list Z) * option (gmap Z (option (list string)))) : Prop :=
  exists ps st,
    r = (Some ps, Some st)
    /\ (forall z, z ∈ ps -> z ∈ fst sup)
    /\ forall p v, st !! p = Some v -> exists sv, (p, sv) ∈ snd sup /\ within v sv.

(** [within], for a set of stage names in the accumulator. *)
Definition within_set (v : option (gset string)) (sv : option (list string)) : Prop :=
  match sv with
  | None => True
  | Some sl => match v with Some s => forall x, x ∈ s -> x ∈ sl | None => False end
  end.

(** The accumulators of the loop ask for no more than the superset. *)
Definition acc_within (acc : Acc) : Prop :=
  (forall z, z ∈ fst acc -> z ∈ fst get_superset_requirements)
  /\ forall p v, snd acc !! p = Some v ->
       exists sv, (p, sv) ∈ snd get_superset_requirements /\ within_set v sv.

(** The same for a catalogue entry, as a test. *)
Definition withinb (v sv : option (list string)) : bool :=
  match sv with
  | None => true
  | Some sl =>
      match v with
      | Some l => forallb (fun x => existsb (String.eqb x) sl) l
      | None => false
      end
  end.

Definition item_within (sup : Entry) (item : Z * option (list string)) : bool :=
  existsb (fun q => Z.eqb (fst item) (fst q) && withinb (snd item) (snd q)) (snd sup).

Definition entry_within (sup : Entry) (e : Entry) : bool :=
  forallb (fun z => existsb (Z.eqb z) (fst sup)) (fst e)
  && forallb (item_within sup) (snd e).

End Cover.

(** ** More sample data *)

Module Sample2.

(** A loader that finds no model. *)
Definition loader_none (_ : Runner) (_ : ndarray) (_ : Requirement)
    : outcome (option Model) := Ret None.

(** A model that knows its bundle path, and a world where the caller holds
    it at address 0. *)
Definition pathed_model : Model :=
  {| _bundle_path := Some "/bundles/ref"; bundle_path := None;
     periods_list := periods_list Sample.good_model |}.

Definition world_pathed : World :=
  {| heap := {[ 0 := pathed_model ]}; next_loc := 1; roots := {[ 0 ]};
     loader_calls := []; log := [] |}.

(** The unified cache after a first lookup from an empty cache in an empty
    world, where the loaded model gets address 0. *)
Definition after_lookup : St UnifiedModelCache.t :=
  snd (UnifiedModelCache.get_reference_model Sample.path_resolves Sample.loader_good
         Sample.runner_default Sample.x0 None
         (UnifiedModelCache.__init__, Sample.world0)).

(** ... then released, nobody holding the model ... *)
Definition released : St UnifiedModelCache.t :=
  snd (UnifiedModelCache.clear_strong_refs after_lookup).

(** ... or released while the caller holds the model. *)
Definition released_held : St UnifiedModelCache.t :=
  snd (UnifiedModelCache.clear_strong_refs
         (fst after_lookup, caller_keeps 0 (snd after_lookup))).

(** A solution that raises [RuntimeError] on [EGM] alone. *)
Definition egm_raising_perch : Perch :=
  {| sol := Some (Some {| _jit := Holds Sample.full_jit;
                          EGM := Fails (OtherError "RuntimeError" "boom") |}) |}.

(** A solution that raises [AttributeError] on every attribute access. *)
Definition attribute_error_perch : Perch :=
  {| sol := Some (Some {| _jit := Fails (AttributeError "no such attribute");
                          EGM := Fails (AttributeError "no such attribute") |}) |}.

(** A solution whose attribute access is interrupted from the keyboard. *)
Definition interrupted_perch : Perch :=
  {| sol := Some (Some {| _jit := Fails (BaseError "KeyboardInterrupt" "");
                          EGM := Fails (BaseError "KeyboardInterrupt" "") |}) |}.

(** The perch raising on [EGM] between ordinary ones, the first of which
    comes after a perch raising [AttributeError]. *)
Definition egm_raising_model : Model :=
  Sample.model_of [("arvl", attribute_error_perch); ("dcsn", Sample.good_perch);
                   ("cntn", egm_raising_perch); ("last", Sample.good_perch)].

(** The perch raising on every access between two ordinary ones. *)
Definition bad_middle_model : Model :=
  Sample.model_of [("arvl", Sample.good_perch); ("dcsn", Sample.bad_perch);
                   ("cntn", Sample.good_perch)].

(** An ordinary perch, then the interrupted one, then an ordinary one. *)
Definition interrupted_model : Model :=
  Sample.model_of [("arvl", Sample.good_perch); ("dcsn", interrupted_perch);
                   ("cntn", Sample.good_perch)].

(** A loader that needs a module which is not installed. *)
Definition loader_import_error (_ : Runner) (_ : ndarray) (_ : Requirement)
    : outcome (option Model) := Raise (ImportError "No module named 'dynx.solver'").

End Sample2.

(** * Properties *)

(** ** String facts for the cache keys *)

Lemma append_assoc (a b c : string) : (a +:+ b) +:+ c = a +:+ (b +:+ c).
Proof.
  induction a as [|ch a IH]; [reflexivity |].
  change (String ch ((a +:+ b) +:+ c) = String ch (a +:+ b +:+ c)).
  now rewrite IH.
Qed.

Lemma append_cancel_l (a b c : string) : a +:+ b = a +:+ c -> b = c.
Proof.
  induction a as [|ch a IH]; intros H; [exact H |].
  change (String ch (a +:+ b) = String ch (a +:+ c)) in H.
  injection H as H. auto.
Qed.

Lemma superset_key_of_eq (p : string) :
  UnifiedModelCache.superset_key_of p = p +:+ "_p0-1_superset_p0-1".
Proof.
  change (UnifiedModelCache.superset_key_of p)
    with ((p +:+ "_p0-1") +:+ "_superset_p0-1").
  apply append_assoc.
Qed.

(** ** The requirement catalogue *)

(** C9, as stated, fails: for the empty list the result is not the empty
    requirement. *)
Lemma get_metric_requirements_nil_not_empty :
  metric_requirements.get_metric_requirements [] <> Obs.empty_requirement.
Proof. unfold Obs.empty_requirement. simpl. intros H. discriminate H. Qed.

(** C9, amended: applied to an empty list of metric names,
    [get_metric_requirements] does not fail and returns the pair
    [(None, None)]: no period list and no stage map, rather than an empty
    list and an empty map. *)
Theorem get_metric_requirements_nil :
  metric_requirements.get_metric_requirements [] = (None, None).
Proof. reflexivity. Qed.

(** The empty requirement is what a non-empty list of unknown names gives. *)
Lemma get_metric_requirements_unknown :
  metric_requirements.get_metric_requirements ["no_such_metric"] = Obs.empty_requirement.
Proof. vm_compute. reflexivity. Qed.

(** ** [ReferenceModelCache.get] *)

(** The name looked up by [get] is bound neither on the instance, nor in the
    class, nor in the module. *)
Lemma superset_method_unbound :
  "_get_superset_requirements" ∉
    (ReferenceModelCache.instance_names ++ ReferenceModelCache.class_names
     ++ ReferenceModelCache.module_names)%list.
Proof. apply (bool_decide_eq_false_1 _). vm_compute. reflexivity. Qed.

(** C2: every call of [ReferenceModelCache.get] raises [AttributeError] at
    its first statement, whatever the cache, the runner, the parameter vector
    and the external functions are; cache and world are left as they were, so
    neither the cache nor the loader has been consulted. *)
Theorem get_raises_attribute_error
    (ref_bundle_path : Runner -> ndarray -> option string)
    (load_reference_model : Runner -> ndarray -> Requirement -> outcome (option Model))
    (pickle_md5_hexdigest : ndarray -> string)
    (runner : Runner) (x : ndarray) (metric_requirements : option Requirement)
    (cleanup_for_metrics : bool) (s : St ReferenceModelCache.t) :
  ReferenceModelCache.get ref_bundle_path load_reference_model pickle_md5_hexdigest
      runner x metric_requirements cleanup_for_metrics s
  = (Raise (AttributeError
       "'ReferenceModelCache' object has no attribute '_get_superset_requirements'"),
     s).
Proof. reflexivity. Qed.

(** C1: on a miss (empty cache, a bundle path that resolves, a loader that
    returns a model) [get] raises [AttributeError]: nothing is loaded, nothing
    is stored, no model is returned.  From the same state, the remaining
    statements of [get] do what the claim describes: they invoke the loader
    once with the superset requirement, store the model under weak and
    strong references with access count 1, and return it. *)
Theorem get_miss_raises_instead_of_loading :
  let s0 := (ReferenceModelCache.__init__, Sample.world0) in
  let key := "/bundles/ref_superset_p0-1" in
  (exists msg,
     ReferenceModelCache.get Sample.path_resolves Sample.loader_good Sample.digest
       Sample.runner_default Sample.x0 None true s0
     = (Raise (AttributeError msg), s0))
  /\ fst (ReferenceModelCache.get_from Sample.path_resolves Sample.loader_good
            Sample.digest ReferenceModelCache._get_superset_requirements
            Sample.runner_default Sample.x0 true s0) = Ret (Some 0)
  /\ ReferenceModelCache._cache (fst Sample.after_first_load) !! key = Some 0
  /\ ReferenceModelCache._strong_refs (fst Sample.after_first_load) !! key = Some 0
  /\ ReferenceModelCache._access_count (fst Sample.after_first_load) !! key = Some 1%Z
  /\ loader_calls (snd Sample.after_first_load)
     = [(Sample.runner_default, Sample.x0, ReferenceModelCache._get_superset_requirements)].
Proof.
  cbv zeta. split; [eexists; reflexivity |].
  repeat split; vm_compute; reflexivity.
Qed.

(** ** Cache keys of the two components *)

Lemma reference_key_of_path
    (ref_bundle_path : Runner -> ndarray -> option string)
    (pickle_md5_hexdigest : ndarray -> string)
    (runner : Runner) (x : ndarray) (requirements : option Requirement) (p : string) :
  ref_bundle_path runner x = Some p ->
  ReferenceModelCache.get_cache_key ref_bundle_path pickle_md5_hexdigest
    runner x requirements = p +:+ "_superset_p0-1".
Proof. intros H. unfold ReferenceModelCache.get_cache_key. now rewrite H. Qed.

(** C3, as stated, fails: for the bundle path ["/bundles/ref"] the key of
    [ReferenceModelCache.get_cache_key] is not the key under which
    [UnifiedModelCache.get_reference_model] looks up and stores. *)
Lemma cache_keys_differ_sample :
  ReferenceModelCache.get_cache_key Sample.path_resolves Sample.digest
    Sample.runner_default Sample.x0 None
  <> UnifiedModelCache.superset_key_of "/bundles/ref".
Proof. vm_compute. intros H. discriminate H. Qed.

(** C3, amended: when the reference bundle path resolves to [p],
    [ReferenceModelCache.get_cache_key] gives [p] followed by
    ["_superset_p0-1"], while [UnifiedModelCache.get_reference_model] uses [p]
    followed by ["_p0-1"] and ["_superset_p0-1"]; each key depends on the
    path alone, and the two are never equal. *)
Theorem cache_keys_of_path
    (ref_bundle_path : Runner -> ndarray -> option string)
    (pickle_md5_hexdigest : ndarray -> string)
    (runner : Runner) (x : ndarray) (requirements : option Requirement) (p : string) :
  ref_bundle_path runner x = Some p ->
  ReferenceModelCache.get_cache_key ref_bundle_path pickle_md5_hexdigest
    runner x requirements = p +:+ "_superset_p0-1"
  /\ UnifiedModelCache.superset_key_of p = p +:+ "_p0-1" +:+ "_superset_p0-1"
  /\ ReferenceModelCache.get_cache_key ref_bundle_path pickle_md5_hexdigest
       runner x requirements <> UnifiedModelCache.superset_key_of p.
Proof.
  intros H. rewrite (reference_key_of_path _ _ _ _ _ _ H), superset_key_of_eq.
  split; [reflexivity | split; [reflexivity |]].
  intros E. apply append_cancel_l in E. discriminate E.
Qed.

Lemma cache_keys_of_path_sample :
  Sample.path_resolves Sample.runner_default Sample.x0 = Some "/bundles/ref"
  /\ ReferenceModelCache.get_cache_key Sample.path_resolves Sample.digest
       Sample.runner_default Sample.x0 None = "/bundles/ref_superset_p0-1"
  /\ UnifiedModelCache.superset_key_of "/bundles/ref"
     = "/bundles/ref_p0-1_superset_p0-1"
  /\ ReferenceModelCache.get_cache_key Sample.path_resolves Sample.digest
       Sample.runner_default Sample.x0 None
     <> UnifiedModelCache.superset_key_of "/bundles/ref".
Proof.
  split; [reflexivity |].
  apply (cache_keys_of_path Sample.path_resolves Sample.digest
           Sample.runner_default Sample.x0 None "/bundles/ref").
  reflexivity.
Defined.

(** ** [UnifiedModelCache.get_reference_model] *)

Section GetReferenceModel.
Import UnifiedModelCache.
Variable ref_bundle_path : Runner -> ndarray -> option string.
Variable load_reference_model :
  Runner -> ndarray -> Requirement -> outcome (option Model).

Local Abbreviation get_reference_model :=
  (UnifiedModelCache.get_reference_model ref_bundle_path load_reference_model).

Lemma cached_spec (k msg : string) (c : t) (w : World) :
  cached k msg (c, w) =
    match Obs.live_entry c w k with
    | Some m => (Ret (Some m), (bump k c, emit (INFO, msg) w))
    | None => (Ret None, (c, w))
    end.
Proof.
  unfold cached, Obs.live_entry. run.
  destruct (_cache c !! k) as [l|]; simpl; [| reflexivity].
  run. destruct (deref l w); reflexivity.
Qed.

(** First tier: the baseline method's registration is live. *)
Lemma get_reference_model_from_method runner x rq c w k m :
  _method_to_model c !! getattr (baseline_method runner) "VFI_HD_GRID" = Some k ->
  Obs.live_entry c w k = Some m ->
  get_reference_model runner x rq (c, w)
  = (Ret (Some m),
     (bump k c,
      emit (INFO, "Using baseline model '"
                  +:+ getattr (baseline_method runner) "VFI_HD_GRID"
                  +:+ "' as reference (from method cache)") w)).
Proof.
  intros Hk Hm. unfold UnifiedModelCache.get_reference_model.
  unfold bind at 1. unfold self_ at 1. simpl. rewrite Hk.
  unfold bind at 1. rewrite cached_spec, Hm. reflexivity.
Qed.

(** Without a live registration the first tier leaves the state alone. *)
Lemma first_tier_miss runner c w :
  Obs.baseline_entry c w runner = None ->
  match _method_to_model c !! getattr (baseline_method runner) "VFI_HD_GRID" with
  | Some cache_key =>
      cached cache_key
        ("Using baseline model '" +:+ getattr (baseline_method runner) "VFI_HD_GRID"
         +:+ "' as reference (from method cache)")
  | None => ret None
  end (c, w) = (Ret None, (c, w)).
Proof.
  unfold Obs.baseline_entry. intros H.
  destruct (_method_to_model c !! _) as [k|]; simpl in H; [| reflexivity].
  rewrite cached_spec, H. reflexivity.
Qed.

(** Second tier: the superset entry of the bundle path is live. *)
Lemma get_reference_model_from_path runner x rq c w p m :
  Obs.baseline_entry c w runner = None ->
  ref_bundle_path runner x = Some p ->
  Obs.live_entry c w (superset_key_of p) = Some m ->
  get_reference_model runner x rq (c, w)
  = (Ret (Some m),
     (bump (superset_key_of p) c,
      emit (INFO, "Using cached reference model with key '"
                  +:+ superset_key_of p +:+ "'") w)).
Proof.
  intros Hb Hp Hm. unfold UnifiedModelCache.get_reference_model.
  unfold bind at 1. unfold self_ at 1. simpl.
  unfold bind at 1. rewrite (first_tier_miss _ _ _ Hb). rewrite Hp.
  unfold bind at 1. rewrite cached_spec, Hm. reflexivity.
Qed.

(** Third tier, the path resolves: the loaded model is stored. *)
Lemma get_reference_model_loads runner x rq c w p mv :
  Obs.baseline_entry c w runner = None ->
  ref_bundle_path runner x = Some p ->
  Obs.live_entry c w (superset_key_of p) = None ->
  load_reference_model runner x superset_requirements = Ret (Some mv) ->
  get_reference_model runner x rq (c, w)
  = (Ret (Some (next_loc w)),
     (store (superset_key_of p) (next_loc w) c, Obs.loaded runner x mv w)).
Proof.
  intros Hb Hp Hm Hl. unfold UnifiedModelCache.get_reference_model.
  unfold bind at 1. unfold self_ at 1. simpl.
  unfold bind at 1. rewrite (first_tier_miss _ _ _ Hb). rewrite Hp.
  unfold bind at 1. rewrite cached_spec, Hm.
  unfold call_loader. rewrite Hl. reflexivity.
Qed.

(** Third tier, the path does not resolve: the loader's result is passed
    on and the cache is left alone. *)
Lemma get_reference_model_loads_unkeyed runner x rq c w mv :
  Obs.baseline_entry c w runner = None ->
  ref_bundle_path runner x = None ->
  load_reference_model runner x superset_requirements = Ret (Some mv) ->
  get_reference_model runner x rq (c, w)
  = (Ret (Some (next_loc w)), (c, Obs.loaded runner x mv w)).
Proof.
  intros Hb Hp Hl. unfold UnifiedModelCache.get_reference_model.
  unfold bind at 1. unfold self_ at 1. simpl.
  unfold bind at 1. rewrite (first_tier_miss _ _ _ Hb). rewrite Hp.
  unfold call_loader. rewrite Hl. reflexivity.
Qed.

(** When the loader gives no model, or raises, nothing is stored. *)
Lemma get_reference_model_no_model runner x rq c w :
  Obs.baseline_entry c w runner = None ->
  Obs.path_entry ref_bundle_path runner x c w = None ->
  load_reference_model runner x superset_requirements = Ret None ->
  get_reference_model runner x rq (c, w) = (Ret None, (c, Obs.tried runner x w)).
Proof.
  unfold Obs.path_entry. intros Hb Hm Hl. unfold UnifiedModelCache.get_reference_model.
  unfold bind at 1. unfold self_ at 1. simpl.
  unfold bind at 1. rewrite (first_tier_miss _ _ _ Hb).
  unfold call_loader. rewrite Hl.
  destruct (ref_bundle_path runner x) as [p|]; [| reflexivity].
  unfold bind at 1. rewrite cached_spec, Hm. reflexivity.
Qed.

Lemma get_reference_model_loader_raises runner x rq c w e :
  Obs.baseline_entry c w runner = None ->
  Obs.path_entry ref_bundle_path runner x c w = None ->
  load_reference_model runner x superset_requirements = Raise e ->
  get_reference_model runner x rq (c, w) = (Raise e, (c, Obs.tried runner x w)).
Proof.
  unfold Obs.path_entry. intros Hb Hm Hl. unfold UnifiedModelCache.get_reference_model.
  unfold bind at 1. unfold self_ at 1. simpl.
  unfold bind at 1. rewrite (first_tier_miss _ _ _ Hb).
  unfold call_loader. rewrite Hl.
  destruct (ref_bundle_path runner x) as [p|]; [| reflexivity].
  unfold bind at 1. rewrite cached_spec, Hm. reflexivity.
Qed.

Lemma baseline_entry_inv runner c w m :
  Obs.baseline_entry c w runner = Some m ->
  exists k,
    _method_to_model c !! getattr (baseline_method runner) "VFI_HD_GRID" = Some k
    /\ Obs.live_entry c w k = Some m.
Proof.
  unfold Obs.baseline_entry. intros H.
  destruct (_method_to_model c !! _) as [k|]; simpl in H; [| discriminate H].
  now exists k.
Qed.

(** Counting an access and logging leave the lookups as they were. *)
Lemma baseline_entry_bump runner c w k r :
  Obs.baseline_entry (bump k c) (emit r w) runner = Obs.baseline_entry c w runner.
Proof. reflexivity. Qed.

Lemma live_entry_bump c w k r k' :
  Obs.live_entry (bump k c) (emit r w) k' = Obs.live_entry c w k'.
Proof. reflexivity. Qed.

Lemma get_reference_model_baseline runner x rq c w m :
  Obs.baseline_entry c w runner = Some m ->
  exists k r, get_reference_model runner x rq (c, w)
              = (Ret (Some m), (bump k c, emit r w)).
Proof.
  intros H. destruct (baseline_entry_inv _ _ _ _ H) as (k & Hk & Hm).
  exists k. eexists. now apply get_reference_model_from_method.
Qed.

(** C10: when a model [m] is registered under the runner's baseline method
    and its weak reference is live, [get_reference_model] returns [m] for
    every parameter vector; the whole outcome of the call is the same for any
    two vectors, a second call with another vector returns [m] again, and
    the loader is not invoked. *)
Theorem baseline_model_for_every_x runner c w m :
  Obs.baseline_entry c w runner = Some m ->
  forall x1 rq1 x2 rq2,
    fst (get_reference_model runner x1 rq1 (c, w)) = Ret (Some m)
    /\ get_reference_model runner x1 rq1 (c, w) = get_reference_model runner x2 rq2 (c, w)
    /\ fst (get_reference_model runner x2 rq2
              (snd (get_reference_model runner x1 rq1 (c, w)))) = Ret (Some m)
    /\ loader_calls (snd (snd (get_reference_model runner x2 rq2
                                 (snd (get_reference_model runner x1 rq1 (c, w))))))
       = loader_calls w.
Proof.
  intros H x1 rq1 x2 rq2.
  destruct (baseline_entry_inv _ _ _ _ H) as (k & Hk & Hm).
  rewrite (get_reference_model_from_method runner x1 rq1 c w k m Hk Hm).
  rewrite (get_reference_model_from_method runner x2 rq2 c w k m Hk Hm).
  simpl. split; [reflexivity | split; [reflexivity |]].
  match goal with |- context [emit ?r w] =>
    rewrite (get_reference_model_from_method runner x2 rq2 (bump k c) (emit r w) k m Hk Hm)
  end.
  split; reflexivity.
Qed.

(** What [register_method_model] leaves behind. *)
Lemma register_method_model_entry method model periods c w :
  deref model w = Some model ->
  let s1 := snd (register_method_model method model periods (c, w)) in
  _method_to_model (fst s1) !! method
    = Some (get_model_cache_key (model_id_of method (heap w !! model)) periods)
  /\ Obs.live_entry (fst s1) (snd s1)
       (get_model_cache_key (model_id_of method (heap w !! model)) periods)
     = Some model
  /\ loader_calls (snd s1) = loader_calls w.
Proof.
  intros Hlive. unfold register_method_model. run.
  set (ck := get_model_cache_key _ periods).
  destruct (bool_decide (periods = Some [0; 1]%Z) || bool_decide (periods = None));
    simpl; unfold Obs.live_entry; simpl.
  - split; [apply lookup_insert_eq |]. split; [| reflexivity].
    rewrite lookup_insert. case_decide; simpl.
    + unfold deref in *. simpl. exact Hlive.
    + rewrite lookup_insert_eq. simpl. unfold deref in *. simpl. exact Hlive.
  - split; [apply lookup_insert_eq |]. split; [| reflexivity].
    rewrite lookup_insert_eq. simpl. unfold deref in *. simpl. exact Hlive.
Qed.

(** C6: after [register_method_model(method, model, periods)], in particular
    with [periods = [0, 1]], a call of [get_reference_model] under a runner
    whose baseline method is [method] returns that same model, and the
    loader has not been invoked: its invocation count is what it was. *)
Theorem registered_baseline_is_reused method model periods runner x rq c w :
  deref model w = Some model ->
  getattr (baseline_method runner) "VFI_HD_GRID" = method ->
  let s1 := snd (register_method_model method model periods (c, w)) in
  fst (get_reference_model runner x rq s1) = Ret (Some model)
  /\ loader_invocations (snd (snd (get_reference_model runner x rq s1)))
     = loader_invocations w.
Proof.
  intros Hlive Hm s1. subst method.
  destruct (register_method_model_entry
              (getattr (baseline_method runner) "VFI_HD_GRID") model periods c w Hlive)
    as (Hk & He & Hl).
  fold s1 in Hk, He, Hl. destruct s1 as [c1 w1]. simpl in Hk, He, Hl.
  rewrite (get_reference_model_from_method runner x rq c1 w1 _ model Hk He).
  simpl. split; [reflexivity |]. unfold loader_invocations. simpl. now rewrite Hl.
Qed.

(** C4, amended: when the baseline registration and the superset entry both
    miss, the reference bundle path resolves to [p], and the loader returns a
    model, that model is returned and is cached under the superset key of
    [p]: weak reference, strong reference, access count 1. *)
Theorem loaded_model_is_cached runner x rq c w p mv :
  Obs.baseline_entry c w runner = None ->
  ref_bundle_path runner x = Some p ->
  Obs.live_entry c w (superset_key_of p) = None ->
  load_reference_model runner x superset_requirements = Ret (Some mv) ->
  exists m,
    fst (get_reference_model runner x rq (c, w)) = Ret (Some m)
    /\ heap (snd (snd (get_reference_model runner x rq (c, w)))) !! m = Some mv
    /\ Obs.cached_once (fst (snd (get_reference_model runner x rq (c, w))))
         (superset_key_of p) m.
Proof.
  intros Hb Hp Hm Hl. exists (next_loc w).
  rewrite (get_reference_model_loads runner x rq c w p mv Hb Hp Hm Hl). simpl.
  split; [reflexivity |]. split; [apply lookup_insert_eq |].
  unfold Obs.cached_once. simpl. repeat split; apply lookup_insert_eq.
Qed.

(** After a load the new model is live under the superset key, and a stale
    baseline registration can only have come alive as that same model. *)
Lemma live_entry_after_load runner x mv c w k :
  Obs.live_entry (store k (next_loc w) c) (Obs.loaded runner x mv w) k
  = Some (next_loc w).
Proof.
  unfold Obs.live_entry, Obs.loaded, deref. simpl.
  rewrite lookup_insert_eq. simpl. now rewrite lookup_insert_eq.
Qed.

Lemma baseline_entry_after_load runner x mv c w k m' :
  Obs.baseline_entry c w runner = None ->
  Obs.baseline_entry (store k (next_loc w) c) (Obs.loaded runner x mv w) runner = Some m' ->
  m' = next_loc w.
Proof.
  unfold Obs.baseline_entry, Obs.live_entry, Obs.loaded, deref. simpl.
  destruct (_method_to_model c !! _) as [kb|]; simpl; [| discriminate].
  rewrite lookup_insert. case_decide; simpl.
  - rewrite lookup_insert_eq. intros _ E. now injection E.
  - destruct (_cache c !! kb) as [l|]; simpl; [| discriminate].
    rewrite lookup_insert. case_decide; simpl.
    + intros _ E. injection E as <-. congruence.
    + destruct (heap w !! l); [discriminate | intros _ E; discriminate E].
Qed.

(** C5, amended: of two consecutive calls of [get_reference_model] under one
    runner, with parameter vectors that resolve to the same bundle path, the
    second returns the very model the first returned.  Consecutive: nothing
    happens to the cache or to the models between the two calls (no
    [clear()], no [register_method_model()], no release and collection). *)
Theorem consecutive_calls_same_instance runner x1 rq1 x2 rq2 p c w m s1 :
  ref_bundle_path runner x1 = Some p ->
  ref_bundle_path runner x2 = Some p ->
  get_reference_model runner x1 rq1 (c, w) = (Ret (Some m), s1) ->
  fst (get_reference_model runner x2 rq2 s1) = Ret (Some m).
Proof.
  intros Hp1 Hp2 H1.
  destruct (Obs.baseline_entry c w runner) as [l|] eqn:Hb.
  - destruct (get_reference_model_baseline runner x1 rq1 c w l Hb) as (k & r & E).
    rewrite E in H1. injection H1 as <- <-.
    destruct (get_reference_model_baseline runner x2 rq2 (bump k c) (emit r w) l Hb)
      as (k' & r' & E').
    now rewrite E'.
  - destruct (Obs.live_entry c w (superset_key_of p)) as [l|] eqn:Hm.
    + rewrite (get_reference_model_from_path runner x1 rq1 c w p l Hb Hp1 Hm) in H1.
      injection H1 as <- <-.
      erewrite (get_reference_model_from_path runner x2 rq2 (bump _ c) (emit _ w) p l);
        [reflexivity | exact Hb | exact Hp2 | exact Hm].
    + destruct (load_reference_model runner x1 superset_requirements)
        as [[mv|]|e] eqn:Hl.
      * rewrite (get_reference_model_loads runner x1 rq1 c w p mv Hb Hp1 Hm Hl) in H1.
        injection H1 as <- <-.
        destruct (Obs.baseline_entry (store (superset_key_of p) (next_loc w) c)
                    (Obs.loaded runner x1 mv w) runner) as [m'|] eqn:Hb'.
        -- pose proof (baseline_entry_after_load _ _ _ _ _ _ _ Hb Hb') as ->.
           destruct (get_reference_model_baseline runner x2 rq2 _ _ _ Hb')
             as (k' & r' & E').
           now rewrite E'.
        -- now rewrite (get_reference_model_from_path runner x2 rq2 _ _ p _ Hb' Hp2
                          (live_entry_after_load runner x1 mv c w _)).
      * rewrite (get_reference_model_no_model runner x1 rq1 c w Hb) in H1;
          [discriminate H1 | unfold Obs.path_entry; now rewrite Hp1 | exact Hl].
      * rewrite (get_reference_model_loader_raises runner x1 rq1 c w e Hb) in H1;
          [discriminate H1 | unfold Obs.path_entry; now rewrite Hp1 | exact Hl].
Qed.

End GetReferenceModel.

(** *** Instances and counterexamples *)

Lemma baseline_model_for_every_x_sample :
  Obs.baseline_entry (fst Sample.registered) (snd Sample.registered) Sample.runner_M
  = Some 0
  /\ fst (UnifiedModelCache.get_reference_model Sample.path_resolves Sample.loader_good
            Sample.runner_M Sample.x0 None Sample.registered) = Ret (Some 0)
  /\ fst (UnifiedModelCache.get_reference_model Sample.path_resolves Sample.loader_good
            Sample.runner_M Sample.x1 None
            (snd (UnifiedModelCache.get_reference_model Sample.path_resolves
                    Sample.loader_good Sample.runner_M Sample.x0 None Sample.registered)))
     = Ret (Some 0).
Proof.
  assert (H : Obs.baseline_entry (fst Sample.registered) (snd Sample.registered)
                Sample.runner_M = Some 0) by (vm_compute; reflexivity).
  split; [exact H |].
  destruct (baseline_model_for_every_x Sample.path_resolves Sample.loader_good
              Sample.runner_M (fst Sample.registered) (snd Sample.registered) 0 H
              Sample.x0 None Sample.x1 None) as (H1 & _ & H2 & _).
  split; [exact H1 | exact H2].
Defined.

Lemma registered_baseline_is_reused_sample :
  deref 0 Sample.world1 = Some 0
  /\ getattr (baseline_method Sample.runner_M) "VFI_HD_GRID" = "M"
  /\ fst (UnifiedModelCache.get_reference_model Sample.path_resolves Sample.loader_good
            Sample.runner_M Sample.x0 None Sample.registered) = Ret (Some 0)
  /\ loader_invocations
       (snd (snd (UnifiedModelCache.get_reference_model Sample.path_resolves
                    Sample.loader_good Sample.runner_M Sample.x0 None Sample.registered)))
     = 0.
Proof.
  split; [reflexivity |]. split; [reflexivity |].
  apply (registered_baseline_is_reused Sample.path_resolves Sample.loader_good
           "M" 0 (Some [0; 1]%Z) Sample.runner_M Sample.x0 None
           UnifiedModelCache.__init__ Sample.world1); reflexivity.
Defined.

(** C4, as stated, fails: with a runner whose bundle path does not resolve,
    both lookups miss and the loader returns a model, yet the model that is
    returned is cached under no key. *)
Lemma loaded_model_not_cached_without_path :
  let c0 := UnifiedModelCache.__init__ in
  let r := UnifiedModelCache.get_reference_model Sample.path_absent Sample.loader_good
             Sample.runner_default Sample.x0 None (c0, Sample.world0) in
  Obs.baseline_entry c0 Sample.world0 Sample.runner_default = None
  /\ (forall k, Obs.live_entry c0 Sample.world0 k = None)
  /\ Sample.loader_good Sample.runner_default Sample.x0
       UnifiedModelCache.superset_requirements = Ret (Some Sample.good_model)
  /\ fst r = Ret (Some 0)
  /\ forall k, ~ Obs.cached_once (fst (snd r)) k 0.
Proof.
  cbv zeta. split; [reflexivity |]. split; [intros k; reflexivity |].
  split; [reflexivity |]. split; [reflexivity |].
  intros k (H & _).
  rewrite (get_reference_model_loads_unkeyed Sample.path_absent Sample.loader_good
             Sample.runner_default Sample.x0 None UnifiedModelCache.__init__
             Sample.world0 Sample.good_model) in H by reflexivity.
  simpl in H. rewrite lookup_empty in H. discriminate H.
Qed.

Lemma loaded_model_is_cached_sample :
  Obs.baseline_entry UnifiedModelCache.__init__ Sample.world0 Sample.runner_default = None
  /\ Sample.path_resolves Sample.runner_default Sample.x0 = Some "/bundles/ref"
  /\ Obs.live_entry UnifiedModelCache.__init__ Sample.world0
       (UnifiedModelCache.superset_key_of "/bundles/ref") = None
  /\ Sample.loader_good Sample.runner_default Sample.x0
       UnifiedModelCache.superset_requirements = Ret (Some Sample.good_model)
  /\ exists m,
       fst (UnifiedModelCache.get_reference_model Sample.path_resolves Sample.loader_good
              Sample.runner_default Sample.x0 None
              (UnifiedModelCache.__init__, Sample.world0)) = Ret (Some m)
       /\ heap (snd (snd (UnifiedModelCache.get_reference_model Sample.path_resolves
                            Sample.loader_good Sample.runner_default Sample.x0 None
                            (UnifiedModelCache.__init__, Sample.world0)))) !! m
          = Some Sample.good_model
       /\ Obs.cached_once
            (fst (snd (UnifiedModelCache.get_reference_model Sample.path_resolves
                         Sample.loader_good Sample.runner_default Sample.x0 None
                         (UnifiedModelCache.__init__, Sample.world0))))
            (UnifiedModelCache.superset_key_of "/bundles/ref") m.
Proof.
  split; [reflexivity |]. split; [reflexivity |]. split; [reflexivity |].
  split; [reflexivity |].
  apply (loaded_model_is_cached Sample.path_resolves Sample.loader_good
           Sample.runner_default Sample.x0 None UnifiedModelCache.__init__
           Sample.world0 "/bundles/ref" Sample.good_model); reflexivity.
Defined.

(** C5, as stated, fails: two calls under one runner, with vectors that
    resolve to the same bundle path and no [clear()] in between, return
    different models when a model is registered for the runner's baseline
    method between them.  Both models are alive at the second call. *)
Lemma second_call_differs_after_registration :
  Sample.path_resolves Sample.runner_M Sample.x0
    = Sample.path_resolves Sample.runner_M Sample.x1
  /\ fst (UnifiedModelCache.get_reference_model Sample.path_resolves Sample.loader_good
            Sample.runner_M Sample.x0 None Sample.unified0) = Ret (Some 1)
  /\ fst (UnifiedModelCache.get_reference_model Sample.path_resolves Sample.loader_good
            Sample.runner_M Sample.x1 None Sample.unified2) = Ret (Some 0)
  /\ deref 0 (snd Sample.unified2) = Some 0
  /\ deref 1 (snd Sample.unified2) = Some 1
  /\ fst (UnifiedModelCache.get_reference_model Sample.path_resolves Sample.loader_good
            Sample.runner_M Sample.x1 None Sample.unified2)
     <> fst (UnifiedModelCache.get_reference_model Sample.path_resolves Sample.loader_good
               Sample.runner_M Sample.x0 None Sample.unified0).
Proof.
  split; [reflexivity |]. split; [vm_compute; reflexivity |].
  split; [vm_compute; reflexivity |]. split; [vm_compute; reflexivity |].
  split; [vm_compute; reflexivity |].
  vm_compute. intros H. discriminate H.
Qed.

Lemma consecutive_calls_same_instance_sample :
  Sample.path_resolves Sample.runner_M Sample.x0 = Some "/bundles/ref"
  /\ Sample.path_resolves Sample.runner_M Sample.x1 = Some "/bundles/ref"
  /\ UnifiedModelCache.get_reference_model Sample.path_resolves Sample.loader_good
       Sample.runner_M Sample.x0 None Sample.unified0
     = (Ret (Some 1), Sample.unified1)
  /\ fst (UnifiedModelCache.get_reference_model Sample.path_resolves Sample.loader_good
            Sample.runner_M Sample.x1 None Sample.unified1) = Ret (Some 1).
Proof.
  assert (H : UnifiedModelCache.get_reference_model Sample.path_resolves
                Sample.loader_good Sample.runner_M Sample.x0 None Sample.unified0
              = (Ret (Some 1), Sample.unified1)) by (vm_compute; reflexivity).
  split; [reflexivity |]. split; [reflexivity |]. split; [exact H |].
  apply (consecutive_calls_same_instance Sample.path_resolves Sample.loader_good
           Sample.runner_M Sample.x0 None Sample.x1 None "/bundles/ref"
           UnifiedModelCache.__init__ Sample.world1 1 Sample.unified1);
    [reflexivity | reflexivity | exact H].
Defined.

(** ** The trimmer *)

Section Trimmer.
Import ReferenceModelCache Trim.

Lemma for_each_app {A} (body : M A unit) (l1 l2 : list A) :
  for_each body (l1 ++ l2)%list =
    match for_each body l1 with
    | (Ret _, l1') => let '(r, l2') := for_each body l2 in (r, (l1' ++ l2')%list)
    | (Raise e, l1') => (Raise e, (l1' ++ l2)%list)
    end.
Proof.
  induction l1 as [|a l1 IH]; simpl.
  - now destruct (for_each body l2).
  - destruct (body a) as [[u|e] a']; [| reflexivity].
    rewrite IH. destruct (for_each body l1) as [[u1|e1] l1']; [| reflexivity].
    now destruct (for_each body l2).
Qed.

(** Nested loops visit the perches in the order of the flattened list. *)
Lemma for_each_concat {A} (body : M A unit) (flat : A -> list Perch) :
  (forall a, for_each cleanup_perch (flat a) = (fst (body a), flat (snd (body a)))) ->
  forall l,
    for_each cleanup_perch (concat (map flat l))
    = (fst (for_each body l), concat (map flat (snd (for_each body l)))).
Proof.
  intros Hbody. induction l as [|a l IH]; [reflexivity |].
  simpl. rewrite for_each_app, Hbody, IH.
  destruct (body a) as [[u|e] a']; simpl; [| reflexivity].
  now destruct (for_each body l).
Qed.

Lemma for_each_on_value {K} (l : list (K * Perch)) :
  for_each cleanup_perch (map snd l)
  = (fst (for_each (on_value cleanup_perch) l),
     map snd (snd (for_each (on_value cleanup_perch) l))).
Proof.
  induction l as [|[k a] l IH]; [reflexivity |].
  simpl. unfold on_value at 1 3. simpl.
  destruct (cleanup_perch a) as [[u|e] a']; simpl; [| reflexivity].
  rewrite IH. now destruct (for_each (on_value cleanup_perch) l).
Qed.

Lemma cleanup_stage_flat (stage : Stage) :
  for_each cleanup_perch (perches_of_stage stage)
  = (fst (cleanup_stage stage), perches_of_stage (snd (cleanup_stage stage))).
Proof.
  unfold cleanup_stage, perches_of_stage.
  destruct (perches stage) as [ps|] eqn:E; simpl; [| now rewrite E].
  rewrite for_each_on_value.
  now destruct (for_each (on_value cleanup_perch) ps).
Qed.

Lemma cleanup_period_flat (period : Period) :
  for_each cleanup_perch (perches_of_period period)
  = (fst (cleanup_period period), perches_of_period (snd (cleanup_period period))).
Proof.
  unfold cleanup_period, perches_of_period.
  destruct (stages period) as [ss|] eqn:E; simpl; [| now rewrite E].
  rewrite (for_each_concat (on_value cleanup_stage)
             (fun kv : string * Stage => perches_of_stage (snd kv))).
  - now destruct (for_each (on_value cleanup_stage) ss).
  - intros [k st]. unfold on_value. simpl. rewrite cleanup_stage_flat.
    now destruct (cleanup_stage st).
Qed.

(** The walk over periods, stages and perches is one loop over the model's
    perches. *)
Lemma cleanup_model_flat (model : Model) :
  for_each cleanup_perch (perches_of_model model)
  = (fst (cleanup_model model), perches_of_model (snd (cleanup_model model))).
Proof.
  unfold cleanup_model, perches_of_model.
  destruct (periods_list model) as [ps|] eqn:E; simpl; [| now rewrite E].
  rewrite (for_each_concat cleanup_period perches_of_period cleanup_period_flat).
  now destruct (for_each cleanup_period ps).
Qed.

Lemma for_each_preserves {A B} (g : A -> B) (body : M A unit) :
  (forall a, g (snd (body a)) = g a) ->
  forall l, map g (snd (for_each body l)) = map g l.
Proof.
  intros Hbody. induction l as [|a l IH]; [reflexivity |].
  simpl. pose proof (Hbody a) as Ha.
  destruct (body a) as [[u|e] a']; simpl in *.
  - destruct (for_each body l) as [r l']. simpl in *. now rewrite Ha, IH.
  - now rewrite Ha.
Qed.

(** *** One attribute *)

Lemma slot_hasattr_escaping {A} (a : slot A) :
  slot_hasattr a = match escaping a with
                   | Some e => Raise e
                   | None => Ret (match a with Holds _ => true | _ => false end)
                   end.
Proof. now destruct a as [|v|[msg|msg|cls msg|cls msg]]. Qed.

Lemma clear_attr_outcome {A} (a : slot (option A)) :
  fst (clear_attr a) = match escaping a with Some e => Raise e | None => Ret tt end.
Proof. now destruct a as [|v|[msg|msg|cls msg|cls msg]]. Qed.

Lemma clear_attr_cleared {A} (a : slot (option A)) :
  escaping a = None -> cleared (snd (clear_attr a)) = true.
Proof. now destruct a as [|v|[msg|msg|cls msg|cls msg]]. Qed.

Lemma clear_attr_raises {A} (a : slot (option A)) (e : exn) :
  escaping a = Some e -> snd (clear_attr a) = a.
Proof. now destruct a as [|v|[msg|msg|cls msg|cls msg]]. Qed.

Lemma clear_attr_kind {A} (a : slot (option A)) : kind (snd (clear_attr a)) = kind a.
Proof. now destruct a as [|v|[msg|msg|cls msg|cls msg]]. Qed.

Lemma clear_attr_idem {A} (a : slot (option A)) u a' :
  clear_attr a = (Ret u, a') -> clear_attr a' = (Ret tt, a').
Proof.
  destruct a as [|v|[msg|msg|cls msg|cls msg]]; cbv; intros [= <- <-]; reflexivity.
Qed.

(** *** The tests on the arrays of one solution, as a loop *)

Lemma for_each_clear_outcome {A} (l : list (slot (option A))) :
  fst (for_each clear_attr l)
  = match first_raise (map escaping l) with Some e => Raise e | None => Ret tt end.
Proof.
  induction l as [|a l IH]; [reflexivity |].
  simpl. pose proof (clear_attr_outcome a) as Ha.
  destruct (clear_attr a) as [[u|e] a']; simpl in Ha;
    destruct (escaping a) as [e0|]; try discriminate Ha.
  - destruct (for_each clear_attr l) as [r l']. exact IH.
  - exact Ha.
Qed.

Lemma for_each_clear_cleared {A} (l : list (slot (option A))) :
  forallb cleared (firstn (quiet_prefix (map escaping l)) (snd (for_each clear_attr l)))
  = true.
Proof.
  induction l as [|a l IH]; [reflexivity |].
  simpl. pose proof (clear_attr_outcome a) as Ha.
  pose proof (clear_attr_cleared a) as Hc.
  destruct (clear_attr a) as [[u|e] a']; simpl in Ha, Hc;
    destruct (escaping a) as [e0|]; try discriminate Ha; try reflexivity.
  destruct (for_each clear_attr l) as [r l']. simpl in *. now rewrite Hc, IH.
Qed.

Lemma for_each_clear_rest {A} (l : list (slot (option A))) :
  skipn (quiet_prefix (map escaping l)) (snd (for_each clear_attr l))
  = skipn (quiet_prefix (map escaping l)) l.
Proof.
  induction l as [|a l IH]; [reflexivity |].
  simpl. pose proof (clear_attr_outcome a) as Ha.
  pose proof (clear_attr_raises a) as Hr.
  destruct (clear_attr a) as [[u|e] a']; simpl in Ha, Hr;
    destruct (escaping a) as [e0|]; try discriminate Ha.
  - destruct (for_each clear_attr l) as [r l']. exact IH.
  - simpl. now rewrite (Hr e0 eq_refl).
Qed.

Lemma quiet_prefix_all (tests : list (option exn)) :
  first_raise tests = None -> quiet_prefix tests = length tests.
Proof.
  induction tests as [|[e|] tests IH]; simpl; [reflexivity | discriminate |].
  intros H. now rewrite (IH H).
Qed.

Lemma for_each_clear_all {A} (l : list (slot (option A))) :
  first_raise (map escaping l) = None ->
  forallb cleared (snd (for_each clear_attr l)) = true.
Proof.
  intros H. pose proof (for_each_clear_cleared l) as Hc.
  rewrite (quiet_prefix_all _ H), length_map in Hc.
  rewrite firstn_all2 in Hc; [exact Hc |].
  pose proof (f_equal (@length _) (for_each_preserves kind clear_attr clear_attr_kind l)) as Hl.
  rewrite !length_map in Hl. lia.
Qed.

(** *** One solution *)

Lemma trim_jit_arrays (j : Jit) :
  fst (trim_jit j) = fst (for_each clear_attr [Q j; lambda_ j; vlu j])
  /\ [Q (snd (trim_jit j)); lambda_ (snd (trim_jit j)); vlu (snd (trim_jit j))]
     = snd (for_each clear_attr [Q j; lambda_ j; vlu j])
  /\ policy (snd (trim_jit j)) = policy j.
Proof.
  destruct j as [q la v po]. unfold trim_jit, bind, on_Q, on_lambda_, on_vlu. simpl.
  destruct (clear_attr q) as [[[]|e1] q']; simpl; [| now repeat split].
  destruct (clear_attr la) as [[[]|e2] la']; simpl; [| now repeat split].
  destruct (clear_attr v) as [[[]|e3] v']; simpl; now repeat split.
Qed.

Lemma trim_jit_idem (j : Jit) u j' :
  trim_jit j = (Ret u, j') -> trim_jit j' = (Ret tt, j').
Proof.
  destruct j as [q la v po]. unfold trim_jit, bind, on_Q, on_lambda_, on_vlu. simpl.
  destruct (clear_attr q) as [[[]|e1] q'] eqn:Eq; simpl; [| discriminate].
  destruct (clear_attr la) as [[[]|e2] la'] eqn:Ela; simpl; [| discriminate].
  destruct (clear_attr v) as [[[]|e3] v'] eqn:Ev; simpl; [| discriminate].
  intros [= <- <-]. simpl.
  rewrite (clear_attr_idem q tt q' Eq). simpl.
  rewrite (clear_attr_idem la tt la' Ela). simpl.
  now rewrite (clear_attr_idem v tt v' Ev).
Qed.

(** An exception from the test on [_jit] leaves the solution as it was. *)
Lemma cleanup_sol_jit_raises (s : Solution) (e : exn) :
  escaping (_jit s) = Some e -> cleanup_sol s = (Raise e, s).
Proof.
  destruct s as [[|j|[msg|msg|cls msg|cls msg]] eg]; simpl; try discriminate;
    intros [= <-]; reflexivity.
Qed.

(** Otherwise the body is the loop of guarded assignments over the arrays
    of the solution. *)
Lemma cleanup_sol_arrays (s : Solution) :
  escaping (_jit s) = None ->
  fst (cleanup_sol s) = fst (for_each clear_attr (sol_arrays s))
  /\ sol_arrays (snd (cleanup_sol s)) = snd (for_each clear_attr (sol_arrays s)).
Proof.
  destruct s as [jt eg]. intros E.
  assert (Hegm : forall jt', match jt' with Holds _ => False | _ => True end ->
            slot_hasattr jt' = Ret false ->
            fst (cleanup_sol {| _jit := jt'; EGM := eg |})
            = fst (for_each clear_attr (sol_arrays {| _jit := jt'; EGM := eg |}))
            /\ sol_arrays (snd (cleanup_sol {| _jit := jt'; EGM := eg |}))
               = snd (for_each clear_attr (sol_arrays {| _jit := jt'; EGM := eg |}))).
  { intros jt' Hk Hh. unfold cleanup_sol, bind, on_EGM, sol_arrays. cbn [_jit EGM].
    rewrite Hh. cbn [ret]. destruct jt' as [|j|e]; [| destruct Hk |];
      simpl; destruct (clear_attr eg) as [[[]|e'] eg']; simpl; now split. }
  destruct jt as [|j|[msg|msg|cls msg|cls msg]]; try discriminate E;
    [now apply Hegm | | now apply Hegm].
  clear Hegm. destruct (trim_jit_arrays j) as (H1 & H2 & _).
  unfold sol_arrays. cbn [_jit EGM]. rewrite for_each_app.
  unfold cleanup_sol, bind, on__jit, on_EGM. cbn [_jit EGM slot_hasattr].
  destruct (trim_jit j) as [r j']. cbn [fst snd] in H1, H2.
  destruct (for_each clear_attr [Q j; lambda_ j; vlu j]) as [r0 l0].
  cbn [fst snd] in H1, H2. subst r0 l0.
  destruct r as [[]|e]; simpl; [| now split].
  destruct (clear_attr eg) as [[[]|e] eg']; simpl; now split.
Qed.

Lemma cleanup_sol_kind (s : Solution) :
  kind (_jit (snd (cleanup_sol s))) = kind (_jit s).
Proof.
  destruct s as [[|j|[msg|msg|cls msg|cls msg]] eg];
    unfold cleanup_sol, bind, on__jit, on_EGM; simpl; try reflexivity.
  1, 3: now destruct (clear_attr eg) as [[[]|e] eg'].
  destruct (trim_jit j) as [[[]|e] j']; simpl; [| reflexivity].
  now destruct (clear_attr eg) as [[[]|e] eg'].
Qed.

Lemma cleanup_sol_policy (s : Solution) :
  match _jit (snd (cleanup_sol s)) with Holds j => policy j | _ => None end
  = match _jit s with Holds j => policy j | _ => None end.
Proof.
  destruct s as [[|j|[msg|msg|cls msg|cls msg]] eg];
    unfold cleanup_sol, bind, on__jit, on_EGM; simpl; try reflexivity.
  1, 3: now destruct (clear_attr eg) as [[[]|e] eg'].
  destruct (trim_jit_arrays j) as (_ & _ & H).
  destruct (trim_jit j) as [[[]|e] j']; simpl in *; [| exact H].
  now destruct (clear_attr eg) as [[[]|e] eg'].
Qed.

Lemma cleanup_sol_idem (s : Solution) u s' :
  cleanup_sol s = (Ret u, s') -> cleanup_sol s' = (Ret tt, s').
Proof.
  destruct s as [[|j|[msg|msg|cls msg|cls msg]] eg];
    unfold cleanup_sol, bind, on__jit, on_EGM; simpl; try discriminate.
  1, 3: destruct (clear_attr eg) as [[[]|e] eg'] eqn:Ee; simpl; [| discriminate];
        intros [= <- <-]; simpl; now rewrite (clear_attr_idem eg tt eg' Ee).
  destruct (trim_jit j) as [[[]|e] j'] eqn:Ej; simpl; [| discriminate].
  destruct (clear_attr eg) as [[[]|e] eg'] eqn:Ee; simpl; [| discriminate].
  intros [= <- <-]. simpl. rewrite (trim_jit_idem j tt j' Ej). simpl.
  now rewrite (clear_attr_idem eg tt eg' Ee).
Qed.

(** *** One perch *)

(** The body of the loop raises what the first failing test raises. *)
Lemma cleanup_perch_outcome (perch : Perch) :
  fst (cleanup_perch perch)
  = match raises perch with Some e => Raise e | None => Ret tt end.
Proof.
  destruct perch as [[[s|]|]]; try reflexivity.
  unfold cleanup_perch, raises, perch_arrays. simpl.
  destruct (escaping (_jit s)) as [e|] eqn:E.
  - now rewrite (cleanup_sol_jit_raises s e E).
  - destruct (cleanup_sol_arrays s E) as (H & _).
    destruct (cleanup_sol s) as [r s']. simpl in *. rewrite H.
    apply for_each_clear_outcome.
Qed.

Lemma cleanup_perch_raises (perch : Perch) (e : exn) :
  raises perch = Some e -> fst (cleanup_perch perch) = Raise e.
Proof. intros H. now rewrite cleanup_perch_outcome, H. Qed.

Lemma cleanup_perch_returns (perch : Perch) :
  well_behaved perch = true -> fst (cleanup_perch perch) = Ret tt.
Proof.
  unfold well_behaved. rewrite cleanup_perch_outcome.
  now destruct (raises perch).
Qed.

Lemma cleanup_perch_trimmed (perch : Perch) :
  well_behaved perch = true -> perch_trimmed (snd (cleanup_perch perch)) = true.
Proof.
  unfold well_behaved, perch_trimmed.
  destruct perch as [[[s|]|]]; try reflexivity.
  unfold cleanup_perch, raises, perch_arrays. simpl.
  destruct (escaping (_jit s)) as [e|] eqn:E; [discriminate |].
  destruct (cleanup_sol_arrays s E) as (_ & H).
  destruct (cleanup_sol s) as [r s']. simpl in *. rewrite H.
  destruct (first_raise (map escaping (sol_arrays s))) eqn:Ef; [discriminate |].
  intros _. now apply for_each_clear_all.
Qed.

(** Where the body raises, the arrays tested before the failing test hold
    nothing any more, and everything from the failing test on is as it was. *)
Lemma cleanup_perch_stops (perch : Perch) :
  forallb cleared (firstn (arrays_passed perch) (perch_arrays (snd (cleanup_perch perch))))
  = true
  /\ skipn (arrays_passed perch) (perch_arrays (snd (cleanup_perch perch)))
     = skipn (arrays_passed perch) (perch_arrays perch).
Proof.
  destruct perch as [[[s|]|]]; try (split; reflexivity).
  unfold cleanup_perch, arrays_passed, perch_arrays. simpl.
  destruct (escaping (_jit s)) as [e|] eqn:E.
  - rewrite (cleanup_sol_jit_raises s e E). split; reflexivity.
  - destruct (cleanup_sol_arrays s E) as (_ & H).
    destruct (cleanup_sol s) as [r s']. simpl in *. rewrite H.
    split; [apply for_each_clear_cleared | apply for_each_clear_rest].
Qed.

Lemma cleanup_perch_shape (perch : Perch) :
  perch_shape (snd (cleanup_perch perch)) = perch_shape perch.
Proof.
  destruct perch as [[[s|]|]]; try reflexivity.
  unfold cleanup_perch, perch_shape, perch_arrays. simpl.
  pose proof (cleanup_sol_kind s) as Hk.
  destruct (escaping (_jit s)) as [e|] eqn:E.
  - now rewrite (cleanup_sol_jit_raises s e E).
  - destruct (cleanup_sol_arrays s E) as (_ & H).
    destruct (cleanup_sol s) as [r s']. simpl in *. rewrite Hk, H.
    now rewrite (for_each_preserves kind clear_attr clear_attr_kind).
Qed.

Lemma cleanup_perch_policy (perch : Perch) :
  perch_policy (snd (cleanup_perch perch)) = perch_policy perch.
Proof.
  destruct perch as [[[s|]|]]; try reflexivity.
  unfold cleanup_perch, perch_policy. simpl.
  pose proof (cleanup_sol_policy s) as H.
  now destruct (cleanup_sol s) as [r s'].
Qed.

Lemma cleanup_perch_idem (p : Perch) u p' :
  cleanup_perch p = (Ret u, p') -> cleanup_perch p' = (Ret tt, p').
Proof.
  destruct p as [[[s|]|]]; unfold cleanup_perch; simpl;
    try (intros [= <- <-]; reflexivity).
  destruct (cleanup_sol s) as [r s'] eqn:E. intros [= -> <-]. simpl.
  now rewrite (cleanup_sol_idem s u s' E).
Qed.

(** *** The loop over the perches *)

Lemma for_each_outcome (ps : list Perch) :
  fst (for_each cleanup_perch ps)
  = match first_raise (map raises ps) with Some e => Raise e | None => Ret tt end.
Proof.
  induction ps as [|p ps IH]; [reflexivity |].
  simpl. pose proof (cleanup_perch_outcome p) as Hp.
  destruct (cleanup_perch p) as [[u|e] p']; simpl in Hp;
    destruct (raises p) as [e0|]; try discriminate Hp.
  - destruct (for_each cleanup_perch ps) as [r ps']. exact IH.
  - exact Hp.
Qed.

Lemma for_each_well_behaved (ps : list Perch) :
  forallb well_behaved ps = true ->
  for_each cleanup_perch ps = (Ret tt, map (fun p => snd (cleanup_perch p)) ps).
Proof.
  induction ps as [|p ps IH]; [reflexivity |].
  simpl. intros [Hp Hps]%andb_prop.
  pose proof (cleanup_perch_returns p Hp) as Hr.
  destruct (cleanup_perch p) as [r p']. simpl in Hr. subst r.
  now rewrite (IH Hps).
Qed.

Lemma for_each_until_raise (pre post : list Perch) (bad : Perch) (e : exn) :
  forallb well_behaved pre = true ->
  raises bad = Some e ->
  for_each cleanup_perch (pre ++ bad :: post)%list
  = (Raise e,
     (map (fun p => snd (cleanup_perch p)) pre ++ snd (cleanup_perch bad) :: post)%list).
Proof.
  intros Hpre Hbad. rewrite for_each_app, (for_each_well_behaved pre Hpre).
  simpl. pose proof (cleanup_perch_raises bad e Hbad) as Hr.
  destruct (cleanup_perch bad) as [r bad']. simpl in *. now subst r.
Qed.

Lemma trimmed_after (ps : list Perch) :
  forallb well_behaved ps = true ->
  forallb perch_trimmed (map (fun p => snd (cleanup_perch p)) ps) = true.
Proof.
  induction ps as [|p ps IH]; [reflexivity |].
  simpl. intros [Hp Hps]%andb_prop. now rewrite (cleanup_perch_trimmed p Hp), (IH Hps).
Qed.

Lemma policy_after (ps : list Perch) :
  map perch_policy (map (fun p => snd (cleanup_perch p)) ps) = map perch_policy ps.
Proof.
  induction ps as [|p ps IH]; [reflexivity |].
  simpl. now rewrite cleanup_perch_policy, IH.
Qed.

(** The policy arrays stay as they were, whatever the model. *)
Lemma cleanup_model_policy (model : Model) :
  map perch_policy (perches_of_model (snd (cleanup_model model)))
  = map perch_policy (perches_of_model model).
Proof.
  rewrite <- (for_each_preserves perch_policy cleanup_perch cleanup_perch_policy
                (perches_of_model model)).
  now rewrite cleanup_model_flat.
Qed.

(** So does what the lookup of each attribute does. *)
Lemma cleanup_model_shape (model : Model) :
  map perch_shape (perches_of_model (snd (cleanup_model model)))
  = map perch_shape (perches_of_model model).
Proof.
  rewrite <- (for_each_preserves perch_shape cleanup_perch cleanup_perch_shape
                (perches_of_model model)).
  now rewrite cleanup_model_flat.
Qed.

Lemma cleanup_model_outcome (model : Model) :
  fst (cleanup_model model)
  = match model_raises model with Some e => Raise e | None => Ret tt end.
Proof.
  unfold model_raises. rewrite <- for_each_outcome. now rewrite cleanup_model_flat.
Qed.

Lemma conforming_model_raises (model : Model) :
  conforming model = true -> model_raises model = None.
Proof.
  unfold conforming, model_raises, well_behaved.
  induction (perches_of_model model) as [|p ps IH]; [reflexivity |].
  simpl. destruct (raises p); [discriminate | exact IH].
Qed.

(** *** The method *)

Lemma _cleanup_model_memory_spec (c : t) (w : World) (l : loc) (m : Model) :
  heap w !! l = Some m ->
  _cleanup_model_memory (Some l) (c, w) =
    match cleanup_model m with
    | (Ret _, m') =>
        (Ret tt, (c, gc_collect (referents (_strong_refs c)) {[l]}
                       (set_heap (<[l := m']> (heap w)) w)))
    | (Raise e, m') =>
        if is_exception e
        then (Ret tt, (c, emit (WARNING, "Error during model cleanup: " +:+ str_exn e)
                            (set_heap (<[l := m']> (heap w)) w)))
        else (Raise e, (c, set_heap (<[l := m']> (heap w)) w))
    end.
Proof.
  intros H. unfold _cleanup_model_memory, try_except, bind, mutate. simpl.
  rewrite H. destruct (cleanup_model m) as [[u|e] m']; [reflexivity |].
  now destruct (is_exception e).
Qed.

(** The collection at the end of the trimmer keeps the model being trimmed. *)
Lemma heap_after_collect (strong : gset loc) (w : World) (l : loc) (m : Model) :
  heap (gc_collect strong {[l]} (set_heap (<[l := m]> (heap w)) w)) !! l = Some m.
Proof.
  unfold gc_collect. simpl. apply map_lookup_filter_Some.
  split; [apply lookup_insert_eq | simpl; set_solver].
Qed.

(** Whatever the outcome, the model is alive afterwards and is what the
    walk made of it. *)
Lemma _cleanup_model_memory_heap (c : t) (w : World) (l : loc) (m : Model) :
  heap w !! l = Some m ->
  heap (snd (snd (_cleanup_model_memory (Some l) (c, w)))) !! l
  = Some (snd (cleanup_model m)).
Proof.
  intros H. rewrite (_cleanup_model_memory_spec c w l m H).
  destruct (cleanup_model m) as [[u|e] m']; simpl.
  - apply heap_after_collect.
  - destruct (is_exception e); apply lookup_insert_eq.
Qed.

(** C8, amended: for every model, [_cleanup_model_memory] leaves the policy
    array of every perch as it was, and leaves every attribute it tests
    present, absent or raising as it was.  For a model none of whose
    solution objects lets an exception through an attribute test (an
    [AttributeError] counts as an absent attribute), it returns without a
    warning, and afterwards no perch's solution holds an array under [Q],
    [lambda_], [vlu] or [EGM]: where present, each has been set to [None]. *)
Theorem cleanup_trims_and_keeps_policy (c : t) (w : World) (l : loc) (m : Model) :
  heap w !! l = Some m ->
  exists m',
    heap (snd (snd (_cleanup_model_memory (Some l) (c, w)))) !! l = Some m'
    /\ map perch_policy (perches_of_model m') = map perch_policy (perches_of_model m)
    /\ map perch_shape (perches_of_model m') = map perch_shape (perches_of_model m)
    /\ (conforming m = true ->
        fst (_cleanup_model_memory (Some l) (c, w)) = Ret tt
        /\ log (snd (snd (_cleanup_model_memory (Some l) (c, w)))) = log w
        /\ forallb perch_trimmed (perches_of_model m') = true).
Proof.
  intros Hl. exists (snd (cleanup_model m)).
  split; [now apply _cleanup_model_memory_heap |].
  split; [apply cleanup_model_policy |]. split; [apply cleanup_model_shape |].
  intros Hc. rewrite (_cleanup_model_memory_spec c w l m Hl).
  pose proof (cleanup_model_flat m) as Hflat.
  rewrite (for_each_well_behaved _ Hc) in Hflat.
  destruct (cleanup_model m) as [r m']. simpl in Hflat.
  injection Hflat as <- Hps. simpl. split; [reflexivity |]. split; [reflexivity |].
  rewrite <- Hps. now apply trimmed_after.
Qed.

(** C7, amended: let [bad] be the first perch of the walk on whose solution
    an attribute test lets an exception [e] through, that is, raises
    something other than an [AttributeError] (which [hasattr] reads as an
    absent attribute, and which does not stop the walk).  If [e] derives
    from [Exception], [_cleanup_model_memory] returns without propagating it
    and logs one warning with its text; otherwise ([KeyboardInterrupt],
    [SystemExit]) [e] goes on to the caller.  Either way the perches visited
    before [bad] are trimmed (no array under [Q], [lambda_], [vlu], [EGM];
    policy as it was), and the perches after [bad] are left as they were,
    arrays included.  In [bad] itself the arrays tested before the failing
    test are cleared, and the rest, like the policy, is as it was: a solution
    raising on [EGM] alone has lost [Q], [lambda_] and [vlu]. *)
Theorem cleanup_stops_at_raising_perch (c : t) (w : World) (l : loc) (m : Model)
    (pre post : list Perch) (bad : Perch) (e : exn) :
  heap w !! l = Some m ->
  perches_of_model m = (pre ++ bad :: post)%list ->
  forallb well_behaved pre = true ->
  raises bad = Some e ->
  (if is_exception e
   then fst (_cleanup_model_memory (Some l) (c, w)) = Ret tt
        /\ log (snd (snd (_cleanup_model_memory (Some l) (c, w))))
           = (WARNING, "Error during model cleanup: " +:+ str_exn e) :: log w
   else fst (_cleanup_model_memory (Some l) (c, w)) = Raise e
        /\ log (snd (snd (_cleanup_model_memory (Some l) (c, w)))) = log w)
  /\ exists m' pre' bad',
       heap (snd (snd (_cleanup_model_memory (Some l) (c, w)))) !! l = Some m'
       /\ perches_of_model m' = (pre' ++ bad' :: post)%list
       /\ forallb perch_trimmed pre' = true
       /\ map perch_policy pre' = map perch_policy pre
       /\ perch_policy bad' = perch_policy bad
       /\ perch_shape bad' = perch_shape bad
       /\ forallb cleared (firstn (arrays_passed bad) (perch_arrays bad')) = true
       /\ skipn (arrays_passed bad) (perch_arrays bad')
          = skipn (arrays_passed bad) (perch_arrays bad).
Proof.
  intros Hl Hps Hpre Hbad.
  pose proof (_cleanup_model_memory_heap c w l m Hl) as Hheap.
  rewrite (_cleanup_model_memory_spec c w l m Hl) in *.
  pose proof (cleanup_model_flat m) as Hflat.
  rewrite Hps, (for_each_until_raise pre post bad e Hpre Hbad) in Hflat.
  destruct (cleanup_model m) as [r m']. simpl in Hflat, Hheap.
  injection Hflat as <- Hps'. split.
  - destruct (is_exception e); simpl; split; reflexivity.
  - exists m', (map (fun p => snd (cleanup_perch p)) pre), (snd (cleanup_perch bad)).
    split; [exact Hheap |]. split; [now symmetry |].
    split; [now apply trimmed_after |]. split; [apply policy_after |].
    split; [apply cleanup_perch_policy |]. split; [apply cleanup_perch_shape |].
    apply cleanup_perch_stops.
Qed.

End Trimmer.

(** *** Instances and counterexamples *)

Lemma cleanup_trims_and_keeps_policy_sample :
  heap (Sample.world_of Sample.good_model) !! 0 = Some Sample.good_model
  /\ Trim.conforming Sample.good_model = true
  /\ exists m',
       heap (snd (snd (ReferenceModelCache._cleanup_model_memory (Some 0)
                         (ReferenceModelCache.__init__,
                          Sample.world_of Sample.good_model)))) !! 0 = Some m'
       /\ map Trim.perch_policy (Trim.perches_of_model m')
          = map Trim.perch_policy (Trim.perches_of_model Sample.good_model)
       /\ map Trim.perch_shape (Trim.perches_of_model m')
          = map Trim.perch_shape (Trim.perches_of_model Sample.good_model)
       /\ (Trim.conforming Sample.good_model = true ->
           fst (ReferenceModelCache._cleanup_model_memory (Some 0)
                  (ReferenceModelCache.__init__, Sample.world_of Sample.good_model))
           = Ret tt
           /\ log (snd (snd (ReferenceModelCache._cleanup_model_memory (Some 0)
                               (ReferenceModelCache.__init__,
                                Sample.world_of Sample.good_model))))
              = log (Sample.world_of Sample.good_model)
           /\ forallb Trim.perch_trimmed (Trim.perches_of_model m') = true).
Proof.
  split; [reflexivity |]. split; [reflexivity |].
  apply (cleanup_trims_and_keeps_policy ReferenceModelCache.__init__
           (Sample.world_of Sample.good_model) 0 Sample.good_model); reflexivity.
Defined.

(** C8, as stated, fails: not every model comes out trimmed.  Where the
    solution of the second of three perches raises on attribute access, the
    trimmer returns, and the third perch still holds all its arrays. *)
Lemma arrays_left_behind_raising_perch :
  let s := ReferenceModelCache._cleanup_model_memory (Some 0)
             (ReferenceModelCache.__init__, Sample.world_of Sample2.bad_middle_model) in
  fst s = Ret tt
  /\ exists m',
       heap (snd (snd s)) !! 0 = Some m'
       /\ map Trim.perch_trimmed (Trim.perches_of_model m') = [true; true; false]
       /\ map Trim.perch_arrays (Trim.perches_of_model m') !! 2
          = Some [Holds (Some [7]%Z); Holds (Some [8]%Z); Holds (Some [9]%Z);
                  Holds (Some [4]%Z)].
Proof.
  cbv zeta. split; [reflexivity |].
  eexists. split; [vm_compute; reflexivity |]. split; reflexivity.
Qed.

(** C7, as stated, fails: in a model where exactly one perch's solution
    raises and that perch is visited first, the trimmer returns, but the
    other perch is not trimmed: the model is left exactly as it was, with
    the arrays of the second perch in place. *)
Lemma later_perch_left_untrimmed :
  let s := ReferenceModelCache._cleanup_model_memory (Some 0)
             (ReferenceModelCache.__init__, Sample.world_of Sample.bad_first_model) in
  map Trim.raises (Trim.perches_of_model Sample.bad_first_model)
    = [Some (OtherError "RuntimeError" "boom"); None]
  /\ fst s = Ret tt
  /\ heap (snd (snd s)) !! 0 = Some Sample.bad_first_model
  /\ map Trim.perch_trimmed (Trim.perches_of_model Sample.bad_first_model)
     = [true; false].
Proof.
  cbv zeta. split; [reflexivity |]. split; [reflexivity |].
  split; [vm_compute; reflexivity | reflexivity].
Qed.

(** An instance of C7 with perches on both sides of the raising one: a perch
    raising [AttributeError] and an ordinary perch before it, both passed
    without a warning, and an ordinary perch after it, which keeps its
    arrays; the raising perch fails on [EGM] alone, after three arrays. *)
Lemma cleanup_stops_at_raising_perch_sample :
  let m := Sample2.egm_raising_model in
  let pre := [Sample2.attribute_error_perch; Sample.good_perch] in
  let bad := Sample2.egm_raising_perch in
  let post := [Sample.good_perch] in
  let e := OtherError "RuntimeError" "boom" in
  let r := ReferenceModelCache._cleanup_model_memory (Some 0)
             (ReferenceModelCache.__init__, Sample.world_of m) in
  heap (Sample.world_of m) !! 0 = Some m
  /\ Trim.perches_of_model m = (pre ++ bad :: post)%list
  /\ forallb Trim.well_behaved pre = true
  /\ Trim.raises bad = Some e
  /\ Trim.arrays_passed bad = 3
  /\ (fst r = Ret tt
      /\ log (snd (snd r)) = [(WARNING, "Error during model cleanup: boom")])
  /\ exists m' pre' bad',
       heap (snd (snd r)) !! 0 = Some m'
       /\ Trim.perches_of_model m' = (pre' ++ bad' :: post)%list
       /\ forallb Trim.perch_trimmed pre' = true
       /\ map Trim.perch_policy pre' = map Trim.perch_policy pre
       /\ Trim.perch_policy bad' = Trim.perch_policy bad
       /\ Trim.perch_shape bad' = Trim.perch_shape bad
       /\ forallb Trim.cleared (firstn 3 (Trim.perch_arrays bad')) = true
       /\ skipn 3 (Trim.perch_arrays bad') = skipn 3 (Trim.perch_arrays bad).
Proof.
  cbv zeta.
  split; [reflexivity |]. split; [reflexivity |]. split; [reflexivity |].
  split; [reflexivity |]. split; [reflexivity |].
  apply (cleanup_stops_at_raising_perch ReferenceModelCache.__init__
           (Sample.world_of Sample2.egm_raising_model) 0 Sample2.egm_raising_model
           [Sample2.attribute_error_perch; Sample.good_perch] [Sample.good_perch]
           Sample2.egm_raising_perch (OtherError "RuntimeError" "boom"));
    reflexivity.
Defined.

(** * Further properties *)

(** ** Sorting and the period-scoped cache key *)

Section Sorting.
Context {A : Type} (leb : A -> A -> bool).

Lemma insert_by_perm (a : A) (l : list A) : insert_by leb a l ≡ₚ a :: l.
Proof.
  induction l as [|b l IH]; simpl; [reflexivity |].
  destruct (leb a b); [reflexivity |].
  rewrite IH. apply Permutation_swap.
Qed.

Lemma sorted_by_perm (l : list A) : sorted_by leb l ≡ₚ l.
Proof.
  induction l as [|a l IH]; simpl; [reflexivity |].
  unfold sorted_by in *. simpl. now rewrite insert_by_perm, IH.
Qed.

Hypothesis leb_total : forall a b, leb a b = true \/ leb b a = true.
Hypothesis leb_trans : forall a b c, leb a b = true -> leb b c = true -> leb a c = true.

Lemma insert_by_sorted (a : A) (l : list A) :
  StronglySorted (fun x y => leb x y = true) l ->
  StronglySorted (fun x y => leb x y = true) (insert_by leb a l).
Proof.
  induction 1 as [|b l Hl IH Hb]; simpl; [repeat constructor |].
  destruct (leb a b) eqn:E.
  - constructor; [now constructor |].
    constructor; [exact E |].
    eapply Forall_impl; [exact Hb |]. intros c Hc. simpl in Hc. eauto.
  - constructor; [exact IH |].
    rewrite insert_by_perm. constructor; [| exact Hb].
    destruct (leb_total a b) as [H|H]; [congruence | exact H].
Qed.

Lemma sorted_by_sorted (l : list A) :
  StronglySorted (fun x y => leb x y = true) (sorted_by leb l).
Proof.
  induction l as [|a l IH]; [constructor |].
  unfold sorted_by in *. simpl. now apply insert_by_sorted.
Qed.

Hypothesis leb_antisym : forall a b, leb a b = true -> leb b a = true -> a = b.

(** Sorting forgets the order of its input. *)
Lemma sorted_by_permutation (l1 l2 : list A) :
  l1 ≡ₚ l2 -> sorted_by leb l1 = sorted_by leb l2.
Proof.
  intros H. apply (StronglySorted_unique_strong (fun x y => leb x y = true)).
  - intros x y _ _. apply leb_antisym.
  - apply sorted_by_sorted.
  - apply sorted_by_sorted.
  - now rewrite !sorted_by_perm.
Qed.
End Sorting.

Lemma Zleb_total (a b : Z) : Z.leb a b = true \/ Z.leb b a = true.
Proof. lia. Qed.

Lemma Zleb_trans (a b c : Z) : Z.leb a b = true -> Z.leb b c = true -> Z.leb a c = true.
Proof. lia. Qed.

Lemma Zleb_antisym (a b : Z) : Z.leb a b = true -> Z.leb b a = true -> a = b.
Proof. lia. Qed.

Lemma sorted_ints_permutation (l1 l2 : list Z) :
  l1 ≡ₚ l2 -> sorted_ints l1 = sorted_ints l2.
Proof. apply sorted_by_permutation; [apply Zleb_total | apply Zleb_trans | apply Zleb_antisym]. Qed.

(** X1: the key of a selective load does not depend on the order in which
    the periods are listed. *)
Theorem get_model_cache_key_permutation (model_id : string) (ps1 ps2 : list Z) :
  ps1 ≡ₚ ps2 ->
  UnifiedModelCache.get_model_cache_key model_id (Some ps1)
  = UnifiedModelCache.get_model_cache_key model_id (Some ps2).
Proof.
  intros H. unfold UnifiedModelCache.get_model_cache_key.
  now rewrite (sorted_ints_permutation ps1 ps2 H).
Qed.

Lemma get_model_cache_key_permutation_sample :
  [1; 0]%Z ≡ₚ [0; 1]%Z
  /\ UnifiedModelCache.get_model_cache_key "/bundles/ref" (Some [1; 0]%Z)
     = UnifiedModelCache.get_model_cache_key "/bundles/ref" (Some [0; 1]%Z).
Proof.
  assert (H : [1; 0]%Z ≡ₚ [0; 1]%Z) by apply Permutation_swap.
  split; [exact H |].
  apply (get_model_cache_key_permutation "/bundles/ref" [1; 0]%Z [0; 1]%Z H).
Defined.

Lemma length_append (a b : string) :
  String.length (a +:+ b) = String.length a + String.length b.
Proof.
  induction a as [|ch a IH]; [reflexivity |].
  change (S (String.length (a +:+ b)) = S (String.length a + String.length b)).
  now rewrite IH.
Qed.

Lemma append_cancel_r (a b c : string) : a +:+ c = b +:+ c -> a = b.
Proof.
  revert b. induction a as [|x a IH]; intros [|y b] H.
  - reflexivity.
  - apply (f_equal String.length) in H. rewrite !length_append in H. simpl in H. lia.
  - apply (f_equal String.length) in H. rewrite !length_append in H. simpl in H. lia.
  - change (String x (a +:+ c) = String y (b +:+ c)) in H.
    injection H as -> H. f_equal. now apply IH.
Qed.

(** X2: for one list of periods the key determines the model identity, and
    for one model identity the key of a full load is never the key of a
    selective load. *)
Theorem get_model_cache_key_separates (id1 id2 : string) (periods : option (list Z))
    (ps : list Z) :
  (UnifiedModelCache.get_model_cache_key id1 periods
   = UnifiedModelCache.get_model_cache_key id2 periods -> id1 = id2)
  /\ UnifiedModelCache.get_model_cache_key id1 None
     <> UnifiedModelCache.get_model_cache_key id1 (Some ps).
Proof.
  unfold UnifiedModelCache.get_model_cache_key. split.
  - destruct periods as [qs|]; intros H.
    + rewrite <- !append_assoc in H. apply append_cancel_r in H.
      now apply append_cancel_r in H.
    + now apply append_cancel_r in H.
  - intros H. apply append_cancel_l in H. discriminate H.
Qed.

Lemma get_model_cache_key_separates_sample :
  (UnifiedModelCache.get_model_cache_key "/bundles/a" (Some [0; 1]%Z)
   = UnifiedModelCache.get_model_cache_key "/bundles/a" (Some [0; 1]%Z)
   -> "/bundles/a" = "/bundles/a")
  /\ UnifiedModelCache.get_model_cache_key "/bundles/a" None
     <> UnifiedModelCache.get_model_cache_key "/bundles/a" (Some [0; 1]%Z).
Proof.
  apply (get_model_cache_key_separates "/bundles/a" "/bundles/a" (Some [0; 1]%Z)
           [0; 1]%Z).
Defined.

(** ** The requirement catalogue *)

Section Catalogue.
Import metric_requirements.

Lemma gmr_of_fold (n1 n2 : list string) :
  n1 <> [] -> n2 <> [] ->
  foldl add_metric (∅, ∅) n1 = foldl add_metric (∅, ∅) n2 ->
  get_metric_requirements n1 = get_metric_requirements n2.
Proof.
  destruct n1 as [|a n1]; [congruence |]. destruct n2 as [|b n2]; [congruence |].
  intros _ _ H. unfold get_metric_requirements. now rewrite H.
Qed.

Lemma add_metric_unknown (acc : Acc) (u : string) :
  METRIC_REQUIREMENTS !! u = None -> add_metric acc u = acc.
Proof. intros H. destruct acc as [P D]. unfold add_metric, Entry in *. now rewrite H. Qed.

(** X3: a name that is not in the catalogue contributes nothing: where other
    names remain, the result is the one without it; alone, it gives the
    empty requirement (not the [(None, None)] of the empty list). *)
Theorem unknown_metric_contributes_nothing (l1 l2 : list string) (u : string) :
  METRIC_REQUIREMENTS !! u = None ->
  ((l1 ++ l2)%list <> [] ->
   get_metric_requirements (l1 ++ u :: l2)%list = get_metric_requirements (l1 ++ l2)%list)
  /\ get_metric_requirements [u] = Obs.empty_requirement.
Proof.
  intros Hu. split.
  - intros Hne. apply gmr_of_fold; [now destruct l1 | exact Hne |].
    rewrite !foldl_app. cbn [foldl]. now rewrite (add_metric_unknown _ u Hu).
  - unfold get_metric_requirements. cbn [foldl]. rewrite (add_metric_unknown _ u Hu).
    unfold Obs.empty_requirement. now rewrite fmap_empty.
Qed.

End Catalogue.

Lemma unknown_metric_contributes_nothing_sample :
  metric_requirements.METRIC_REQUIREMENTS !! "no_such_metric" = None
  /\ ((["euler_error"] ++ ["plot_policy"])%list <> [] ->
      metric_requirements.get_metric_requirements
        (["euler_error"] ++ "no_such_metric" :: ["plot_policy"])%list
      = metric_requirements.get_metric_requirements
          (["euler_error"] ++ ["plot_policy"])%list)
  /\ metric_requirements.get_metric_requirements ["no_such_metric"]
     = Obs.empty_requirement.
Proof.
  split; [vm_compute; reflexivity |].
  apply (unknown_metric_contributes_nothing ["euler_error"] ["plot_policy"]
           "no_such_metric").
  vm_compute. reflexivity.
Defined.

(** *** The loops as folds of a commutative, idempotent step *)

Section Folds.
Context {A B : Type} `{EqDecision B} (f : A -> B -> A).
Hypothesis f_comm : forall a x y, f (f a x) y = f (f a y) x.

Lemma foldl_permutation (l1 l2 : list B) :
  l1 ≡ₚ l2 -> forall a, foldl f a l1 = foldl f a l2.
Proof.
  induction 1 as [|x l1 l2 _ IH|x y l|l1 l2 l3 _ IH1 _ IH2]; intros a; simpl.
  - reflexivity.
  - apply IH.
  - now rewrite f_comm.
  - now rewrite IH1.
Qed.

Hypothesis f_idem : forall a x, f (f a x) x = f a x.

Lemma foldl_absorb (l : list B) (x : B) (a : A) :
  x ∈ l -> foldl f (f a x) l = foldl f a l.
Proof.
  intros [l' Hl]%elem_of_Permutation.
  rewrite (foldl_permutation _ _ Hl (f a x)), (foldl_permutation _ _ Hl a).
  simpl. now rewrite f_idem.
Qed.

Lemma foldl_remove_dups (l : list B) (a : A) :
  foldl f a (remove_dups l) = foldl f a l.
Proof.
  revert a. induction l as [|x l IH]; intros a; simpl; [reflexivity |].
  destruct (decide_rel elem_of x l) as [Hx|Hx]; simpl.
  - now rewrite IH, foldl_absorb.
  - apply IH.
Qed.

(** Such a fold depends on the set of the items only. *)
Lemma foldl_same_elements (l1 l2 : list B) (a : A) :
  (forall x, x ∈ l1 <-> x ∈ l2) -> foldl f a l1 = foldl f a l2.
Proof.
  intros H. rewrite <- (foldl_remove_dups l1), <- (foldl_remove_dups l2).
  apply foldl_permutation, NoDup_Permutation; [apply NoDup_remove_dups.. |].
  intros x. now rewrite !elem_of_remove_dups.
Qed.
End Folds.

Section CatalogueFolds.
Import metric_requirements Cover.

Lemma add_stages_join (D : gmap Z (option (gset string))) (p : Z)
    (sl : option (list string)) :
  add_stages D (p, sl) = <[p := join_stages (D !! p) sl]> D.
Proof.
  unfold add_stages, join_stages.
  destruct (D !! p) as [[cur|]|] eqn:E, sl as [l|];
    rewrite ?E, ?lookup_insert_eq, ?insert_insert_eq; try reflexivity.
  symmetry. now apply insert_id.
Qed.

Lemma join_stages_comm o a b :
  join_stages (Some (join_stages o a)) b = join_stages (Some (join_stages o b)) a.
Proof.
  destruct o as [[cur|]|], a as [a|], b as [b|]; simpl; try reflexivity;
    f_equal; set_solver.
Qed.

Lemma join_stages_idem o a :
  join_stages (Some (join_stages o a)) a = join_stages o a.
Proof.
  destruct o as [[cur|]|], a as [a|]; simpl; try reflexivity; f_equal; set_solver.
Qed.

Lemma add_stages_comm D i j :
  add_stages (add_stages D i) j = add_stages (add_stages D j) i.
Proof.
  destruct i as [p a], j as [q b]. rewrite !add_stages_join.
  destruct (decide (p = q)) as [->|Hne].
  - rewrite !lookup_insert_eq, !insert_insert_eq. now rewrite join_stages_comm.
  - rewrite !lookup_insert_ne by congruence. now apply insert_insert_ne.
Qed.

Lemma add_stages_idem D i : add_stages (add_stages D i) i = add_stages D i.
Proof.
  destruct i as [p a]. rewrite !add_stages_join.
  rewrite lookup_insert_eq, insert_insert_eq. now rewrite join_stages_idem.
Qed.

Lemma add_metric_comm acc m1 m2 :
  add_metric (add_metric acc m1) m2 = add_metric (add_metric acc m2) m1.
Proof.
  destruct acc as [P D]. unfold add_metric.
  destruct (METRIC_REQUIREMENTS !! m1) as [[ps1 st1]|],
           (METRIC_REQUIREMENTS !! m2) as [[ps2 st2]|]; try reflexivity.
  f_equal; [set_solver |].
  rewrite <- !foldl_app.
  apply (foldl_same_elements add_stages add_stages_comm add_stages_idem).
  intros x. rewrite !elem_of_app. tauto.
Qed.

Lemma add_metric_idem acc m : add_metric (add_metric acc m) m = add_metric acc m.
Proof.
  destruct acc as [P D]. unfold add_metric.
  destruct (METRIC_REQUIREMENTS !! m) as [[ps st]|]; [| reflexivity].
  f_equal; [set_solver |].
  rewrite <- !foldl_app.
  apply (foldl_same_elements add_stages add_stages_comm add_stages_idem).
  intros x. rewrite !elem_of_app. tauto.
Qed.

(** X4: the combined requirement depends on which metric names are given,
    not on their order and not on how often a name is repeated. *)
Theorem get_metric_requirements_same_names (names1 names2 : list string) :
  (forall m, m ∈ names1 <-> m ∈ names2) ->
  get_metric_requirements names1 = get_metric_requirements names2.
Proof.
  intros H. destruct names1 as [|a n1].
  - destruct names2 as [|b n2]; [reflexivity |].
    exfalso. apply (not_elem_of_nil b), H. left.
  - apply gmr_of_fold; [discriminate | |].
    + intros ->. apply (not_elem_of_nil a), H. left.
    + now apply (foldl_same_elements add_metric add_metric_comm add_metric_idem).
Qed.

End CatalogueFolds.

Lemma get_metric_requirements_same_names_sample :
  (forall m, m ∈ ["plot_policy"; "euler_error"; "plot_policy"]
             <-> m ∈ ["euler_error"; "plot_policy"])
  /\ metric_requirements.get_metric_requirements
       ["plot_policy"; "euler_error"; "plot_policy"]
     = metric_requirements.get_metric_requirements ["euler_error"; "plot_policy"].
Proof.
  assert (H : forall m, m ∈ ["plot_policy"; "euler_error"; "plot_policy"]
                        <-> m ∈ ["euler_error"; "plot_policy"])
    by (intros m; rewrite !elem_of_cons, !elem_of_nil; tauto).
  split; [exact H |].
  apply (get_metric_requirements_same_names
           ["plot_policy"; "euler_error"; "plot_policy"]
           ["euler_error"; "plot_policy"] H).
Defined.

(** *** The superset requirement and the shape of the result *)

Section Superset.
Import metric_requirements Cover.

Lemma catalogue_within (m : string) (e : Entry) :
  METRIC_REQUIREMENTS !! m = Some e -> entry_within get_superset_requirements e = true.
Proof.
  unfold METRIC_REQUIREMENTS. intros H%elem_of_list_to_map_2.
  match type of H with
  | _ ∈ ?L =>
      assert (Hall : forallb (fun me : string * Entry =>
                                entry_within get_superset_requirements (snd me)) L = true)
        by (vm_compute; reflexivity)
  end.
  rewrite forallb_forall in Hall. apply (Hall (m, e)). now apply list_elem_of_In.
Qed.

Lemma superset_stages_functional (p : Z) (sv1 sv2 : option (list string)) :
  (p, sv1) ∈ snd get_superset_requirements ->
  (p, sv2) ∈ snd get_superset_requirements -> sv1 = sv2.
Proof.
  unfold get_superset_requirements. simpl.
  rewrite !elem_of_cons, !elem_of_nil. intros [H1|[H1|[]]] [H2|[H2|[]]]; congruence.
Qed.

Lemma item_within_spec (p : Z) (sl : option (list string)) :
  item_within get_superset_requirements (p, sl) = true ->
  exists sv, (p, sv) ∈ snd get_superset_requirements /\ within sl sv.
Proof.
  unfold item_within. rewrite existsb_exists. intros ([q sv] & Hin & Hq). simpl in Hq.
  apply andb_prop in Hq as [Hp Hw]. apply Z.eqb_eq in Hp. subst q.
  exists sv. split; [now apply list_elem_of_In |].
  destruct sv as [SL|]; [| exact I]. destruct sl as [l|]; [| discriminate Hw].
  simpl in *. intros x Hx. rewrite forallb_forall in Hw.
  specialize (Hw x (proj1 (list_elem_of_In _ _) Hx)).
  apply existsb_exists in Hw as (y & Hy & E). apply String.eqb_eq in E. subst y.
  now apply list_elem_of_In.
Qed.

Lemma add_stages_within D item :
  item_within get_superset_requirements item = true ->
  (forall p v, D !! p = Some v ->
     exists sv, (p, sv) ∈ snd get_superset_requirements /\ within_set v sv) ->
  forall p v, add_stages D item !! p = Some v ->
    exists sv, (p, sv) ∈ snd get_superset_requirements /\ within_set v sv.
Proof.
  destruct item as [q sl]. intros (sv & Hin & Hw)%item_within_spec HD p v.
  rewrite add_stages_join, lookup_insert. case_decide as E; [| apply HD].
  subst p. intros Hv. injection Hv as <-. exists sv. split; [exact Hin |].
  destruct sv as [SL|]; [| exact I]. destruct sl as [l|]; [| destruct Hw].
  simpl in Hw |- *. destruct (D !! q) as [[cur|]|] eqn:EQ; simpl.
  - destruct (HD q _ EQ) as (sv' & Hin' & Hw').
    rewrite (superset_stages_functional q sv' (Some SL) Hin' Hin) in Hw'. simpl in Hw'.
    intros x [Hx|Hx%elem_of_list_to_set]%elem_of_union; auto.
  - destruct (HD q _ EQ) as (sv' & Hin' & Hw').
    now rewrite (superset_stages_functional q sv' (Some SL) Hin' Hin) in Hw'.
  - intros x [Hx|Hx%elem_of_list_to_set]%elem_of_union; [set_solver | auto].
Qed.

Lemma add_metric_within acc m : acc_within acc -> acc_within (add_metric acc m).
Proof.
  destruct acc as [P D]. intros [HP HD]. unfold add_metric.
  destruct (METRIC_REQUIREMENTS !! m) as [[ps st]|] eqn:E; [| now split].
  apply catalogue_within in E. unfold entry_within in E. cbn [fst snd] in E.
  apply andb_prop in E as [Eps Est]. split; cbn [fst snd].
  - intros z [Hz|Hz%elem_of_list_to_set]%elem_of_union; [now apply HP |].
    rewrite forallb_forall in Eps.
    specialize (Eps z (proj1 (list_elem_of_In _ _) Hz)).
    apply existsb_exists in Eps as (y & Hy & Ey). apply Z.eqb_eq in Ey. subst y.
    now apply list_elem_of_In.
  - clear Eps HP. revert D HD. induction st as [|item st IH]; intros D HD; [exact HD |].
    cbn [forallb] in Est. apply andb_prop in Est as [Ei Est]. cbn [foldl].
    apply (IH Est). now apply add_stages_within.
Qed.

Lemma foldl_add_metric_within names acc :
  acc_within acc -> acc_within (foldl add_metric acc names).
Proof.
  revert acc. induction names as [|m names IH]; intros acc H; [exact H |].
  simpl. apply IH. now apply add_metric_within.
Qed.

Lemma gmr_nonempty (names : list string) :
  names <> [] ->
  get_metric_requirements names
  = (Some (sorted_ints (elements (fst (foldl add_metric (∅, ∅) names)))),
     Some ((fun v : option (gset string) =>
              match v with
              | Some stages => Some (sorted_strs (elements stages))
              | None => None
              end) <$> snd (foldl add_metric (∅, ∅) names))).
Proof.
  destruct names as [|a names]; [congruence |]. intros _.
  unfold get_metric_requirements.
  now destruct (foldl add_metric (∅, ∅) (a :: names)).
Qed.

(** X5: the superset requirement covers every combination of metrics: for
    any non-empty list of names the combined requirement is a period list
    and a stage map whose periods are among the superset's and whose stages,
    period by period, are among the superset's (all of them where the
    superset says [None]).  Both caches pass this same superset to the
    loader. *)
Theorem superset_covers_every_combination (names : list string) :
  names <> [] ->
  covered_by get_superset_requirements (get_metric_requirements names)
  /\ UnifiedModelCache.superset_requirements
     = {| periods_to_load := fst get_superset_requirements;
          stages_to_load := snd get_superset_requirements |}
  /\ ReferenceModelCache._get_superset_requirements
     = UnifiedModelCache.superset_requirements.
Proof.
  intros Hne. split; [| split; reflexivity].
  rewrite (gmr_nonempty names Hne). eexists _, _. split; [reflexivity |].
  assert (H0 : acc_within (∅, ∅)).
  { split; simpl; [set_solver |]. intros p v Hv. now rewrite lookup_empty in Hv. }
  pose proof (foldl_add_metric_within names _ H0) as Hacc.
  revert Hacc. generalize (foldl add_metric (∅, ∅) names).
  intros [P D] [HP HD]. cbn [fst snd] in *. split.
  - intros z Hz. apply HP. apply elem_of_elements.
    unfold sorted_ints in Hz. now rewrite sorted_by_perm in Hz.
  - intros p v Hv. rewrite lookup_fmap in Hv.
    destruct (D !! p) as [v0|] eqn:E; [| discriminate Hv].
    cbn in Hv. injection Hv as <-.
    destruct (HD p v0 E) as (sv & Hin & Hw). exists sv. split; [exact Hin |].
    destruct sv as [SL|]; [| exact I]. destruct v0 as [s|]; [| destruct Hw].
    cbn in Hw |- *. intros x Hx. apply Hw, elem_of_elements.
    unfold sorted_strs in Hx. now rewrite sorted_by_perm in Hx.
Qed.

Lemma StronglySorted_weaken {A} (R1 R2 : A -> A -> Prop) (l : list A) :
  (forall x y, R1 x y -> R2 x y) -> StronglySorted R1 l -> StronglySorted R2 l.
Proof.
  intros H. induction 1 as [|x l _ IH Hx]; constructor; [exact IH |].
  eapply Forall_impl; [exact Hx | auto].
Qed.

Lemma String_leb_trans (a b c : string) :
  String.leb a b = true -> String.leb b c = true -> String.leb a c = true.
Proof.
  intros H1%Is_true_true H2%Is_true_true. apply Is_true_true.
  exact (transitivity (R := String.le) H1 H2).
Qed.

(** X6: in a combined requirement the period list is in increasing order
    without repetition, and so is every stage list, in the order of
    [String.leb]. *)
Theorem get_metric_requirements_sorted (names : list string)
    (ps : list Z) (st : gmap Z (option (list string))) :
  get_metric_requirements names = (Some ps, Some st) ->
  StronglySorted Z.le ps /\ NoDup ps
  /\ forall p l, st !! p = Some (Some l) ->
       StronglySorted (fun a b => String.leb a b = true) l /\ NoDup l.
Proof.
  intros H. destruct names as [|a names]; [discriminate H |].
  rewrite (gmr_nonempty (a :: names)) in H by discriminate.
  revert H. generalize (foldl add_metric (∅, ∅) (a :: names)).
  intros [P D] H. cbn [fst snd] in H. injection H as <- <-. split; [| split].
  - apply (StronglySorted_weaken (fun x y => Z.leb x y = true)); [intros x y; lia |].
    apply sorted_by_sorted; [apply Zleb_total | apply Zleb_trans].
  - unfold sorted_ints. rewrite sorted_by_perm. apply NoDup_elements.
  - intros p l Hl. rewrite lookup_fmap in Hl.
    destruct (D !! p) as [[s|]|]; cbn in Hl; try discriminate Hl.
    injection Hl as <-. split.
    + apply sorted_by_sorted; [apply String.leb_total | apply String_leb_trans].
    + unfold sorted_strs. rewrite sorted_by_perm. apply NoDup_elements.
Qed.

End Superset.

Lemma superset_covers_every_combination_sample :
  ["plot_policy"; "euler_error"] <> []
  /\ Cover.covered_by metric_requirements.get_superset_requirements
       (metric_requirements.get_metric_requirements ["plot_policy"; "euler_error"]).
Proof.
  assert (H : ["plot_policy"; "euler_error"] <> []) by discriminate.
  split; [exact H |].
  exact (proj1 (superset_covers_every_combination ["plot_policy"; "euler_error"] H)).
Defined.

Lemma get_metric_requirements_sorted_sample :
  metric_requirements.get_metric_requirements ["plot_policy"; "euler_error"]
  = (Some [0; 1]%Z,
     Some (<[0%Z := Some ["OWNC"; "OWNH"; "RNTC"; "RNTH"; "TENU"]]> {[ 1%Z := None ]}))
  /\ StronglySorted Z.le [0; 1]%Z /\ NoDup [0; 1]%Z.
Proof.
  assert (H : metric_requirements.get_metric_requirements ["plot_policy"; "euler_error"]
              = (Some [0; 1]%Z,
                 Some (<[0%Z := Some ["OWNC"; "OWNH"; "RNTC"; "RNTH"; "TENU"]]>
                         {[ 1%Z := None ]})))
    by (vm_compute; reflexivity).
  split; [exact H |].
  destruct (get_metric_requirements_sorted _ _ _ H) as (H1 & H2 & _).
  split; [exact H1 | exact H2].
Defined.

(** ** Fallback keys of [ReferenceModelCache.get_cache_key] *)

Lemma length_substring_0 (n : nat) (s : string) :
  n <= String.length s -> String.length (substring 0 n s) = n.
Proof.
  revert s. induction n as [|n IH]; intros [|ch s] H; simpl in *;
    try reflexivity; try lia.
  rewrite IH; lia.
Qed.

(** X7: when no bundle path resolves, a key derived from the runner's
    reference parameters is never the key derived from a raw parameter
    vector, the digests being the 32 characters of an MD5 hex digest. *)
Theorem fallback_keys_do_not_collide
    (ref_bundle_path : Runner -> ndarray -> option string)
    (pickle_md5_hexdigest : ndarray -> string)
    (r1 r2 : Runner) (x1 x2 : ndarray) (q1 q2 : option Requirement) (rp : ndarray) :
  (forall v, String.length (pickle_md5_hexdigest v) = 32) ->
  ref_bundle_path r1 x1 = None ->
  ref_bundle_path r2 x2 = None ->
  ref_params r1 = Some (Some rp) ->
  ref_params r2 = None \/ ref_params r2 = Some None ->
  ReferenceModelCache.get_cache_key ref_bundle_path pickle_md5_hexdigest r1 x1 q1
  <> ReferenceModelCache.get_cache_key ref_bundle_path pickle_md5_hexdigest r2 x2 q2.
Proof.
  intros Hlen H1 H2 Hp1 Hp2 E. unfold ReferenceModelCache.get_cache_key in E.
  rewrite H1, H2, Hp1 in E.
  assert (E' : ("ref_" +:+ substring 0 16 (pickle_md5_hexdigest rp)) +:+ "_superset_p0-1"
               = ("ref_fallback_" +:+ substring 0 16 (pickle_md5_hexdigest x2))
                 +:+ "_superset_p0-1")
    by (destruct Hp2 as [Hp2|Hp2]; rewrite Hp2 in E; exact E).
  apply (f_equal String.length) in E'.
  rewrite !length_append, !length_substring_0 in E' by (rewrite Hlen; lia).
  simpl in E'. lia.
Qed.

Lemma fallback_keys_do_not_collide_sample :
  (forall v, String.length (Sample.digest v) = 32)
  /\ Sample.path_absent
       {| baseline_method := None; ref_params := Some (Some [1]%Z); unpack := None |}
       [1]%Z = None
  /\ Sample.path_absent Sample.runner_default [1]%Z = None
  /\ ReferenceModelCache.get_cache_key Sample.path_absent Sample.digest
       {| baseline_method := None; ref_params := Some (Some [1]%Z); unpack := None |}
       [1]%Z None
     <> ReferenceModelCache.get_cache_key Sample.path_absent Sample.digest
          Sample.runner_default [1]%Z None.
Proof.
  assert (H : forall v, String.length (Sample.digest v) = 32) by (intros v; reflexivity).
  split; [exact H |]. split; [reflexivity |]. split; [reflexivity |].
  apply (fallback_keys_do_not_collide Sample.path_absent Sample.digest
           {| baseline_method := None; ref_params := Some (Some [1]%Z); unpack := None |}
           Sample.runner_default [1]%Z [1]%Z None None [1]%Z H);
    [reflexivity | reflexivity | reflexivity | left; reflexivity].
Defined.

(** ** Release and invalidation in the unified cache *)

Section Release.
Import UnifiedModelCache.

Lemma filter_twice {K A} `{Countable K} (P : K * A -> Prop) `{!forall x, Decision (P x)}
    (m : gmap K A) : filter P (filter P m) = filter P m.
Proof.
  apply map_eq. intros i. apply option_eq. intros x.
  rewrite !map_lookup_filter_Some. tauto.
Qed.

Lemma referents_empty : referents ∅ = ∅.
Proof. unfold referents. now rewrite map_to_list_empty. Qed.

(** The records that [clear_strong_refs] logs leave the rest of the world
    alone. *)
Lemma foldl_emit_frame {B} (g : B -> LogRecord) (l : list B) (w : World) :
  let w' := foldl (fun w kv => emit (g kv) w) w l in
  heap w' = heap w /\ next_loc w' = next_loc w /\ roots w' = roots w
  /\ loader_calls w' = loader_calls w.
Proof.
  revert w. induction l as [|b l IH]; intros w; simpl; [now repeat split |].
  destruct (IH (emit (g b) w)) as (H1 & H2 & H3 & H4). now repeat split.
Qed.

Lemma clear_strong_refs_frame (c : t) (w : World) :
  let r := clear_strong_refs (c, w) in
  fst r = Ret tt
  /\ fst (snd r) = {| _cache := _cache c; _strong_refs := ∅;
                      _access_count := _access_count c;
                      _method_to_model := _method_to_model c |}
  /\ heap (snd (snd r)) = filter (fun kv => kv.1 ∈ roots w) (heap w)
  /\ next_loc (snd (snd r)) = next_loc w
  /\ roots (snd (snd r)) = roots w
  /\ loader_calls (snd (snd r)) = loader_calls w.
Proof.
  unfold clear_strong_refs, gc_collect_, gc_collect. run.
  match goal with |- context [foldl ?f (emit ?r w) ?l] =>
    destruct (foldl_emit_frame
                (fun kv : string * Z => (DEBUG, "  " +:+ fst kv +:+ ": accessed "
                                                +:+ str_int (snd kv) +:+ " times"))
                l (emit r w)) as (H1 & H2 & H3 & H4)
  end.
  simpl in *. rewrite H1, H2, H3, H4, referents_empty.
  repeat split. apply map_filter_ext. intros i x _. simpl. set_solver.
Qed.

Lemma live_entry_after_release (c : t) (w : World) (k : string) (l : loc) :
  Obs.live_entry (fst (snd (clear_strong_refs (c, w))))
    (snd (snd (clear_strong_refs (c, w)))) k = Some l
  <-> Obs.live_entry c w k = Some l /\ l ∈ roots w.
Proof.
  pose proof (clear_strong_refs_frame c w) as H. cbv zeta in *.
  destruct (clear_strong_refs (c, w)) as [res [c' w']]. simpl in H |- *.
  destruct H as (-> & -> & H3 & _).
  unfold Obs.live_entry, deref. rewrite H3. simpl.
  destruct (_cache c !! k) as [l'|]; simpl; [| split; [discriminate | intros [? _]; discriminate]].
  destruct (heap w !! l') as [m|] eqn:E.
  - destruct (decide (l' ∈ roots w)) as [Hr|Hr].
    + rewrite (map_lookup_filter_Some_2 _ _ _ _ E Hr).
      split; [intros [= <-]; now split | now intros [? _]].
    + rewrite (map_lookup_filter_None_2 _ (heap w) l')
        by (right; intros x Hx; rewrite E in Hx; injection Hx as <-; exact Hr).
      split; [discriminate | intros [[= <-] Hl]; contradiction].
  - rewrite (map_lookup_filter_None_2 _ (heap w) l') by (left; exact E).
    split; [discriminate | intros [? _]; discriminate].
Qed.

(** X8: [clear_strong_refs] empties the strong references and keeps the
    weak references, the access counts and the method registrations; after
    its collection a cached model is still live exactly when it was live
    before and code outside the cache holds it. *)
Theorem release_keeps_what_is_held (c : t) (w : World) :
  let r := clear_strong_refs (c, w) in
  fst r = Ret tt
  /\ _strong_refs (fst (snd r)) = ∅
  /\ _cache (fst (snd r)) = _cache c
  /\ _access_count (fst (snd r)) = _access_count c
  /\ _method_to_model (fst (snd r)) = _method_to_model c
  /\ forall k l,
       Obs.live_entry (fst (snd r)) (snd (snd r)) k = Some l
       <-> Obs.live_entry c w k = Some l /\ l ∈ roots w.
Proof.
  cbv zeta. destruct (clear_strong_refs_frame c w) as (H1 & H2 & _).
  rewrite H1, H2. simpl. repeat (split; [reflexivity |]).
  intros k l. rewrite <- H2. apply live_entry_after_release.
Qed.

(** X9: [clear] resets the cache from any state: all four dictionaries are
    empty, so every statistic is zero; only models held outside the cache
    survive its collection; and clearing again changes nothing. *)
Theorem clear_resets_and_is_idempotent (c : t) (w : World) :
  let r := clear (c, w) in
  fst r = Ret tt
  /\ fst (snd r) = __init__
  /\ get_stats (snd r)
     = (Ret {| cached_models := 0; strong_refs := 0; method_models := 0;
               access_counts := ∅ |}, snd r)
  /\ (forall l m, heap (snd (snd r)) !! l = Some m <-> heap w !! l = Some m /\ l ∈ roots w)
  /\ snd (clear (snd r)) = snd r.
Proof.
  unfold clear, get_stats, gc_collect_, gc_collect. run. rewrite referents_empty.
  split; [reflexivity |]. split; [reflexivity |]. split; [reflexivity |]. split.
  - intros l m. rewrite map_lookup_filter_Some. simpl. set_solver.
  - unfold set_heap. simpl. now rewrite filter_twice.
Qed.

End Release.

(** ** The lifecycle of a reference model in the unified cache *)

Section Lifecycle.
Import UnifiedModelCache.
Variable ref_bundle_path : Runner -> ndarray -> option string.
Variable load_reference_model :
  Runner -> ndarray -> Requirement -> outcome (option Model).

Local Abbreviation get_reference_model :=
  (UnifiedModelCache.get_reference_model ref_bundle_path load_reference_model).

Lemma baseline_entry_after_release runner c w m :
  Obs.baseline_entry (fst (snd (clear_strong_refs (c, w))))
    (snd (snd (clear_strong_refs (c, w)))) runner = Some m
  <-> Obs.baseline_entry c w runner = Some m /\ m ∈ roots w.
Proof.
  unfold Obs.baseline_entry.
  destruct (clear_strong_refs_frame c w) as (_ & H2 & _).
  rewrite H2 at 1. simpl. rewrite <- H2.
  destruct (_method_to_model c !! _) as [k|]; simpl;
    [apply live_entry_after_release | split; [discriminate | intros [? _]; discriminate]].
Qed.

(** What the world looks like after a load. *)
Lemma loaded_frame runner x mv w :
  next_loc (Obs.loaded runner x mv w) = S (next_loc w)
  /\ roots (Obs.loaded runner x mv w) = roots w
  /\ loader_calls (Obs.loaded runner x mv w)
     = (runner, x, superset_requirements) :: loader_calls w.
Proof. now repeat split. Qed.

(** X10: a model that was loaded into the cache and that nobody outside
    holds is gone after [clear_strong_refs]: the next lookup for the same
    bundle path invokes the loader a second time and returns a new object,
    not the first one. *)
Theorem reload_after_release runner x rq c w p mv :
  Obs.baseline_entry c w runner = None ->
  ref_bundle_path runner x = Some p ->
  Obs.live_entry c w (superset_key_of p) = None ->
  load_reference_model runner x superset_requirements = Ret (Some mv) ->
  next_loc w ∉ roots w ->
  let s1 := snd (get_reference_model runner x rq (c, w)) in
  let s2 := snd (clear_strong_refs s1) in
  fst (get_reference_model runner x rq (c, w)) = Ret (Some (next_loc w))
  /\ fst (get_reference_model runner x rq s2) = Ret (Some (S (next_loc w)))
  /\ loader_invocations (snd (snd (get_reference_model runner x rq s2)))
     = loader_invocations w + 2.
Proof.
  intros Hb Hp Hm Hl Hr.
  rewrite (get_reference_model_loads ref_bundle_path load_reference_model
             runner x rq c w p mv Hb Hp Hm Hl).
  cbv zeta. cbn [fst snd]. split; [reflexivity |].
  set (c1 := store (superset_key_of p) (next_loc w) c).
  set (w1 := Obs.loaded runner x mv w).
  destruct (clear_strong_refs_frame c1 w1) as (_ & _ & _ & Hn & _ & Hc).
  assert (Hb2 : Obs.baseline_entry (fst (snd (clear_strong_refs (c1, w1))))
                  (snd (snd (clear_strong_refs (c1, w1)))) runner = None).
  { match goal with |- ?X = None => destruct X as [m'|] eqn:E; [| reflexivity] end.
    apply baseline_entry_after_release in E as [E Hroot].
    apply (baseline_entry_after_load runner x mv c w _ m' Hb) in E. subst m'.
    contradiction. }
  assert (Hm2 : Obs.live_entry (fst (snd (clear_strong_refs (c1, w1))))
                  (snd (snd (clear_strong_refs (c1, w1)))) (superset_key_of p) = None).
  { match goal with |- ?X = None => destruct X as [l|] eqn:E; [| reflexivity] end.
    apply live_entry_after_release in E as [E Hroot].
    unfold c1, w1 in E. rewrite live_entry_after_load in E. injection E as <-.
    contradiction. }
  destruct (clear_strong_refs (c1, w1)) as [res [c2 w2]]. cbn [fst snd] in *.
  rewrite (get_reference_model_loads ref_bundle_path load_reference_model
             runner x rq c2 w2 p mv Hb2 Hp Hm2 Hl).
  cbn [fst snd]. rewrite Hn. split; [reflexivity |].
  unfold loader_invocations. simpl. rewrite Hc. simpl. lia.
Qed.

(** X11: if the caller keeps the model it was given, [clear_strong_refs]
    does not lose it: the next lookup for the same bundle path returns that
    very object and the loader is not invoked again. *)
Theorem held_model_survives_release runner x rq x' rq' c w p mv :
  Obs.baseline_entry c w runner = None ->
  ref_bundle_path runner x = Some p ->
  ref_bundle_path runner x' = Some p ->
  Obs.live_entry c w (superset_key_of p) = None ->
  load_reference_model runner x superset_requirements = Ret (Some mv) ->
  let s1 := snd (get_reference_model runner x rq (c, w)) in
  let s2 := snd (clear_strong_refs (fst s1, caller_keeps (next_loc w) (snd s1))) in
  fst (get_reference_model runner x rq (c, w)) = Ret (Some (next_loc w))
  /\ fst (get_reference_model runner x' rq' s2) = Ret (Some (next_loc w))
  /\ loader_invocations (snd (snd (get_reference_model runner x' rq' s2)))
     = loader_invocations w + 1.
Proof.
  intros Hb Hp Hp' Hm Hl.
  rewrite (get_reference_model_loads ref_bundle_path load_reference_model
             runner x rq c w p mv Hb Hp Hm Hl).
  cbv zeta. cbn [fst snd]. split; [reflexivity |].
  set (c1 := store (superset_key_of p) (next_loc w) c).
  set (w1 := caller_keeps (next_loc w) (Obs.loaded runner x mv w)).
  destruct (clear_strong_refs_frame c1 w1) as (_ & _ & _ & _ & _ & Hc).
  assert (Hm2 : Obs.live_entry (fst (snd (clear_strong_refs (c1, w1))))
                  (snd (snd (clear_strong_refs (c1, w1)))) (superset_key_of p)
                = Some (next_loc w)).
  { apply live_entry_after_release. split.
    - exact (live_entry_after_load runner x mv c w _).
    - unfold w1, caller_keeps. simpl. set_solver. }
  assert (Hb2 : forall m', Obs.baseline_entry (fst (snd (clear_strong_refs (c1, w1))))
                  (snd (snd (clear_strong_refs (c1, w1)))) runner = Some m' ->
                m' = next_loc w).
  { intros m' E. apply baseline_entry_after_release in E as [E _].
    exact (baseline_entry_after_load runner x mv c w _ m' Hb E). }
  destruct (clear_strong_refs (c1, w1)) as [res [c2 w2]]. cbn [fst snd] in *.
  assert (Hcalls : loader_calls w2 = (runner, x, superset_requirements) :: loader_calls w)
    by exact Hc.
  destruct (Obs.baseline_entry c2 w2 runner) as [m'|] eqn:E.
  - rewrite (Hb2 m' eq_refl) in E.
    destruct (get_reference_model_baseline ref_bundle_path load_reference_model
                runner x' rq' c2 w2 _ E) as (k & r & ->).
    split; [reflexivity |]. unfold loader_invocations. simpl. rewrite Hcalls. simpl. lia.
  - rewrite (get_reference_model_from_path ref_bundle_path load_reference_model
               runner x' rq' c2 w2 p _ E Hp' Hm2).
    split; [reflexivity |]. unfold loader_invocations. simpl. rewrite Hcalls. simpl. lia.
Qed.

(** X12: a load that gives no model is not remembered.  When both lookups
    miss and the loader raises or returns [None], the call raises the same
    exception or returns [None], the cache object is untouched, and a
    repeated call invokes the loader again. *)
Theorem failed_load_is_not_cached runner x rq c w :
  Obs.baseline_entry c w runner = None ->
  Obs.path_entry ref_bundle_path runner x c w = None ->
  (forall mv, load_reference_model runner x superset_requirements <> Ret (Some mv)) ->
  let r := get_reference_model runner x rq (c, w) in
  (fst r = Ret None \/
   exists e, fst r = Raise e
             /\ load_reference_model runner x superset_requirements = Raise e)
  /\ fst (snd r) = c
  /\ loader_invocations (snd (snd r)) = loader_invocations w + 1
  /\ loader_invocations (snd (snd (get_reference_model runner x rq (snd r))))
     = loader_invocations w + 2.
Proof.
  intros Hb Hpe Hl. cbv zeta.
  destruct (load_reference_model runner x superset_requirements) as [[mv|]|e] eqn:E.
  - now destruct (Hl mv).
  - rewrite (get_reference_model_no_model ref_bundle_path load_reference_model
               runner x rq c w Hb Hpe E). cbn [fst snd].
    rewrite (get_reference_model_no_model ref_bundle_path load_reference_model
               runner x rq c (Obs.tried runner x w) Hb Hpe E).
    split; [now left |]. split; [reflexivity |].
    unfold loader_invocations. simpl. lia.
  - rewrite (get_reference_model_loader_raises ref_bundle_path load_reference_model
               runner x rq c w e Hb Hpe E). cbn [fst snd].
    rewrite (get_reference_model_loader_raises ref_bundle_path load_reference_model
               runner x rq c (Obs.tried runner x w) e Hb Hpe E).
    split; [right; now exists e |]. split; [reflexivity |].
    unfold loader_invocations. simpl. lia.
Qed.

(** X13: a lookup that returns a model without invoking the loader is a
    hit on some key [k]: the model is the live one stored under [k], and the
    call changes nothing but the access count of [k], raised by one, and the
    log.  In particular such a call never touches the heap: no trimming, no
    collection. *)
Theorem hit_changes_one_counter runner x rq c w m c' w' :
  get_reference_model runner x rq (c, w) = (Ret (Some m), (c', w')) ->
  loader_calls w' = loader_calls w ->
  exists k r,
    Obs.live_entry c w k = Some m
    /\ c' = set_count k (default 0 (_access_count c !! k) + 1)%Z c
    /\ w' = emit r w.
Proof.
  intros H Hcalls.
  destruct (Obs.baseline_entry c w runner) as [l|] eqn:Hb.
  - destruct (baseline_entry_inv _ _ _ _ Hb) as (k & Hk & Hm).
    rewrite (get_reference_model_from_method ref_bundle_path load_reference_model
               runner x rq c w k l Hk Hm) in H.
    injection H as <- <- <-. now exists k; eexists.
  - destruct (Obs.path_entry ref_bundle_path runner x c w) as [l|] eqn:Hpe.
    + unfold Obs.path_entry in Hpe.
      destruct (ref_bundle_path runner x) as [p|] eqn:Hp; [| discriminate Hpe].
      rewrite (get_reference_model_from_path ref_bundle_path load_reference_model
                 runner x rq c w p l Hb Hp Hpe) in H.
      injection H as <- <- <-. now exists (superset_key_of p); eexists.
    + exfalso.
      assert (Hlen : forall w0, loader_calls w0
                                = (runner, x, superset_requirements) :: loader_calls w ->
                     loader_calls w0 <> loader_calls w).
      { intros w0 E1 E2. rewrite E2 in E1. apply (f_equal length) in E1.
        simpl in E1. lia. }
      destruct (load_reference_model runner x superset_requirements)
        as [[mv|]|e] eqn:El.
      * unfold Obs.path_entry in Hpe.
        destruct (ref_bundle_path runner x) as [p|] eqn:Hp.
        -- rewrite (get_reference_model_loads ref_bundle_path load_reference_model
                      runner x rq c w p mv Hb Hp Hpe El) in H.
           injection H as _ _ <-.
           exact (Hlen (Obs.loaded runner x mv w) eq_refl Hcalls).
        -- rewrite (get_reference_model_loads_unkeyed ref_bundle_path
                      load_reference_model runner x rq c w mv Hb Hp El) in H.
           injection H as _ _ <-.
           exact (Hlen (Obs.loaded runner x mv w) eq_refl Hcalls).
      * rewrite (get_reference_model_no_model ref_bundle_path load_reference_model
                   runner x rq c w Hb Hpe El) in H. discriminate H.
      * rewrite (get_reference_model_loader_raises ref_bundle_path load_reference_model
                   runner x rq c w e Hb Hpe El) in H. discriminate H.
Qed.

(** X14: with a live registration for the runner's baseline method under
    key [k], any sequence of lookups, whatever the parameter vectors, leaves
    that registration live, invokes the loader never, and raises the access
    count of [k] by the number of lookups. *)
Theorem baseline_hits_are_counted runner c w k m
    (calls : list (ndarray * option Requirement)) :
  _method_to_model c !! getattr (baseline_method runner) "VFI_HD_GRID" = Some k ->
  Obs.live_entry c w k = Some m ->
  let s := foldl (fun s xr => snd (get_reference_model runner (fst xr) (snd xr) s))
                 (c, w) calls in
  default 0%Z (_access_count (fst s) !! k)
    = (default 0 (_access_count c !! k) + Z.of_nat (length calls))%Z
  /\ Obs.baseline_entry (fst s) (snd s) runner = Some m
  /\ loader_calls (snd s) = loader_calls w.
Proof.
  intros Hk Hm. cbv zeta. revert c w Hk Hm.
  induction calls as [|[x rq] calls IH]; intros c w Hk Hm.
  - simpl. split; [lia | split; [| reflexivity]].
    unfold Obs.baseline_entry. now rewrite Hk.
  - cbn [foldl fst snd].
    rewrite (get_reference_model_from_method ref_bundle_path load_reference_model
               runner x rq c w k m Hk Hm). cbn [snd].
    match goal with |- context [emit ?r w] =>
      destruct (IH (bump k c) (emit r w) Hk Hm) as (H1 & H2 & H3)
    end.
    split; [| split; [exact H2 | exact H3]].
    rewrite H1. unfold bump. simpl. rewrite lookup_insert_eq. simpl.
    rewrite Nat2Z.inj_succ. lia.
Qed.

End Lifecycle.

(** ** Registration of a baseline model *)

Section Registration.
Import UnifiedModelCache.
Variable ref_bundle_path : Runner -> ndarray -> option string.
Variable load_reference_model :
  Runner -> ndarray -> Requirement -> outcome (option Model).

Local Abbreviation get_reference_model :=
  (UnifiedModelCache.get_reference_model ref_bundle_path load_reference_model).

Lemma register_method_model_state method model periods c w :
  let r := register_method_model method model periods (c, w) in
  let model_id := model_id_of method (heap w !! model) in
  let ck := get_model_cache_key model_id periods in
  fst r = Ret tt
  /\ _cache (fst (snd r))
     = (if bool_decide (periods = Some [0; 1]%Z) || bool_decide (periods = None)
        then <[superset_key_of model_id := model]> (<[ck := model]> (_cache c))
        else <[ck := model]> (_cache c))
  /\ _strong_refs (fst (snd r)) = <[ck := model]> (_strong_refs c)
  /\ _access_count (fst (snd r)) = <[ck := 1%Z]> (_access_count c)
  /\ _method_to_model (fst (snd r)) = <[method := ck]> (_method_to_model c)
  /\ heap (snd (snd r)) = heap w
  /\ loader_calls (snd (snd r)) = loader_calls w.
Proof.
  unfold register_method_model. run.
  destruct (bool_decide (periods = Some [0; 1]%Z) || bool_decide (periods = None));
    simpl; now repeat split.
Qed.

(** X15: a model registered with periods [[0, 1]] or with no period list is
    found by bundle path as well.  If the model's bundle path is the
    reference path of a runner that has no live baseline registration of its
    own, a lookup under that runner returns the registered model and the
    loader is not invoked. *)
Theorem registered_model_found_by_path method model periods runner x rq c w mv p :
  heap w !! model = Some mv ->
  model_id_of method (Some mv) = p ->
  periods = Some [0; 1]%Z \/ periods = None ->
  ref_bundle_path runner x = Some p ->
  Obs.baseline_entry c w runner = None ->
  let s1 := snd (register_method_model method model periods (c, w)) in
  fst (get_reference_model runner x rq s1) = Ret (Some model)
  /\ loader_calls (snd (snd (get_reference_model runner x rq s1))) = loader_calls w.
Proof.
  intros Hheap Hid Hper Hp Hb. cbv zeta.
  pose proof (register_method_model_state method model periods c w) as H.
  cbv zeta in H. rewrite Hheap, Hid in H.
  destruct (register_method_model method model periods (c, w)) as [res [c1 w1]].
  cbn [fst snd] in *. destruct H as (_ & Hcache & _ & _ & Hmtm & Hh & Hcalls).
  assert (Halias : bool_decide (periods = Some [0; 1]%Z) || bool_decide (periods = None)
                   = true)
    by (destruct Hper as [-> | ->]; reflexivity).
  rewrite Halias in Hcache.
  assert (Hpath : Obs.live_entry c1 w1 (superset_key_of p) = Some model).
  { unfold Obs.live_entry, deref. rewrite Hcache, Hh, lookup_insert_eq.
    cbn [mbind option_bind]. now rewrite Hheap. }
  assert (Hbase : forall m', Obs.baseline_entry c1 w1 runner = Some m' -> m' = model).
  { intros m'. unfold Obs.baseline_entry, Obs.live_entry, deref in *.
    rewrite Hmtm, Hcache, Hh. rewrite lookup_insert.
    destruct (decide (method = getattr (baseline_method runner) "VFI_HD_GRID"))
      as [E1|E1]; cbn [mbind option_bind].
    - rewrite lookup_insert.
      destruct (decide (superset_key_of p = get_model_cache_key p periods));
        cbn [mbind option_bind].
      + rewrite Hheap. now intros [= <-].
      + rewrite lookup_insert_eq. cbn [mbind option_bind]. rewrite Hheap.
        now intros [= <-].
    - destruct (_method_to_model c !! _) as [kb|]; cbn [mbind option_bind] in *;
        [| discriminate].
      rewrite lookup_insert.
      destruct (decide (superset_key_of p = kb)); cbn [mbind option_bind].
      + rewrite Hheap. now intros [= <-].
      + rewrite lookup_insert.
        destruct (decide (get_model_cache_key p periods = kb)); cbn [mbind option_bind].
        * rewrite Hheap. now intros [= <-].
        * rewrite Hb. discriminate. }
  destruct (Obs.baseline_entry c1 w1 runner) as [m'|] eqn:E.
  - rewrite (Hbase m' eq_refl) in E.
    destruct (get_reference_model_baseline ref_bundle_path load_reference_model
                runner x rq c1 w1 _ E) as (k & r & ->).
    split; [reflexivity | exact Hcalls].
  - rewrite (get_reference_model_from_path ref_bundle_path load_reference_model
               runner x rq c1 w1 p _ E Hp Hpath).
    split; [reflexivity | exact Hcalls].
Qed.

End Registration.

(** *** Instances *)

Lemma reload_after_release_sample :
  Obs.baseline_entry UnifiedModelCache.__init__ Sample.world0 Sample.runner_default = None
  /\ Sample.path_resolves Sample.runner_default Sample.x0 = Some "/bundles/ref"
  /\ Obs.live_entry UnifiedModelCache.__init__ Sample.world0
       (UnifiedModelCache.superset_key_of "/bundles/ref") = None
  /\ Sample.loader_good Sample.runner_default Sample.x0
       UnifiedModelCache.superset_requirements = Ret (Some Sample.good_model)
  /\ next_loc Sample.world0 ∉ roots Sample.world0
  /\ fst (UnifiedModelCache.get_reference_model Sample.path_resolves Sample.loader_good
            Sample.runner_default Sample.x0 None
            (UnifiedModelCache.__init__, Sample.world0)) = Ret (Some 0)
  /\ fst (UnifiedModelCache.get_reference_model Sample.path_resolves Sample.loader_good
            Sample.runner_default Sample.x0 None Sample2.released) = Ret (Some 1)
  /\ loader_invocations
       (snd (snd (UnifiedModelCache.get_reference_model Sample.path_resolves
                    Sample.loader_good Sample.runner_default Sample.x0 None
                    Sample2.released))) = 2.
Proof.
  assert (Hr : next_loc Sample.world0 ∉ roots Sample.world0)
    by (simpl; apply not_elem_of_empty).
  split; [reflexivity |]. split; [reflexivity |]. split; [reflexivity |].
  split; [reflexivity |]. split; [exact Hr |].
  apply (reload_after_release Sample.path_resolves Sample.loader_good
           Sample.runner_default Sample.x0 None UnifiedModelCache.__init__
           Sample.world0 "/bundles/ref" Sample.good_model);
    [reflexivity | reflexivity | reflexivity | reflexivity | exact Hr].
Defined.

Lemma held_model_survives_release_sample :
  Obs.baseline_entry UnifiedModelCache.__init__ Sample.world0 Sample.runner_default = None
  /\ Sample.path_resolves Sample.runner_default Sample.x0 = Some "/bundles/ref"
  /\ Sample.path_resolves Sample.runner_default Sample.x1 = Some "/bundles/ref"
  /\ Obs.live_entry UnifiedModelCache.__init__ Sample.world0
       (UnifiedModelCache.superset_key_of "/bundles/ref") = None
  /\ Sample.loader_good Sample.runner_default Sample.x0
       UnifiedModelCache.superset_requirements = Ret (Some Sample.good_model)
  /\ fst (UnifiedModelCache.get_reference_model Sample.path_resolves Sample.loader_good
            Sample.runner_default Sample.x0 None
            (UnifiedModelCache.__init__, Sample.world0)) = Ret (Some 0)
  /\ fst (UnifiedModelCache.get_reference_model Sample.path_resolves Sample.loader_good
            Sample.runner_default Sample.x1 None Sample2.released_held) = Ret (Some 0)
  /\ loader_invocations
       (snd (snd (UnifiedModelCache.get_reference_model Sample.path_resolves
                    Sample.loader_good Sample.runner_default Sample.x1 None
                    Sample2.released_held))) = 1.
Proof.
  split; [reflexivity |]. split; [reflexivity |]. split; [reflexivity |].
  split; [reflexivity |]. split; [reflexivity |].
  apply (held_model_survives_release Sample.path_resolves Sample.loader_good
           Sample.runner_default Sample.x0 None Sample.x1 None
           UnifiedModelCache.__init__ Sample.world0 "/bundles/ref" Sample.good_model);
    reflexivity.
Defined.

Lemma failed_load_is_not_cached_sample :
  Obs.baseline_entry UnifiedModelCache.__init__ Sample.world0 Sample.runner_default = None
  /\ Obs.path_entry Sample.path_resolves Sample.runner_default Sample.x0
       UnifiedModelCache.__init__ Sample.world0 = None
  /\ (forall mv, Sample2.loader_none Sample.runner_default Sample.x0
                   UnifiedModelCache.superset_requirements <> Ret (Some mv))
  /\ fst (snd (UnifiedModelCache.get_reference_model Sample.path_resolves
                 Sample2.loader_none Sample.runner_default Sample.x0 None
                 (UnifiedModelCache.__init__, Sample.world0)))
     = UnifiedModelCache.__init__
  /\ loader_invocations
       (snd (snd (UnifiedModelCache.get_reference_model Sample.path_resolves
                    Sample2.loader_none Sample.runner_default Sample.x0 None
                    (snd (UnifiedModelCache.get_reference_model Sample.path_resolves
                            Sample2.loader_none Sample.runner_default Sample.x0 None
                            (UnifiedModelCache.__init__, Sample.world0)))))) = 2.
Proof.
  assert (Hl : forall mv, Sample2.loader_none Sample.runner_default Sample.x0
                            UnifiedModelCache.superset_requirements <> Ret (Some mv))
    by (intros mv; discriminate).
  split; [reflexivity |]. split; [reflexivity |]. split; [exact Hl |].
  destruct (failed_load_is_not_cached Sample.path_resolves Sample2.loader_none
              Sample.runner_default Sample.x0 None UnifiedModelCache.__init__
              Sample.world0 eq_refl eq_refl Hl) as (_ & H1 & _ & H2).
  split; [exact H1 | exact H2].
Defined.

Lemma hit_changes_one_counter_sample :
  UnifiedModelCache.get_reference_model Sample.path_resolves Sample.loader_good
    Sample.runner_M Sample.x0 None (fst Sample.registered, snd Sample.registered)
  = (Ret (Some 0),
     (UnifiedModelCache.bump "M_bundle_p0-1" (fst Sample.registered),
      emit (INFO, "Using baseline model 'M' as reference (from method cache)")
        (snd Sample.registered)))
  /\ exists k r,
       Obs.live_entry (fst Sample.registered) (snd Sample.registered) k = Some 0
       /\ UnifiedModelCache.bump "M_bundle_p0-1" (fst Sample.registered)
          = UnifiedModelCache.set_count k
              (default 0 (UnifiedModelCache._access_count (fst Sample.registered) !! k) + 1)%Z
              (fst Sample.registered)
       /\ emit (INFO, "Using baseline model 'M' as reference (from method cache)")
            (snd Sample.registered) = emit r (snd Sample.registered).
Proof.
  assert (H : UnifiedModelCache.get_reference_model Sample.path_resolves
                Sample.loader_good Sample.runner_M Sample.x0 None
                (fst Sample.registered, snd Sample.registered)
              = (Ret (Some 0),
                 (UnifiedModelCache.bump "M_bundle_p0-1" (fst Sample.registered),
                  emit (INFO, "Using baseline model 'M' as reference (from method cache)")
                    (snd Sample.registered))))
    by (vm_compute; reflexivity).
  split; [exact H |].
  apply (hit_changes_one_counter Sample.path_resolves Sample.loader_good
           Sample.runner_M Sample.x0 None _ _ 0 _ _ H).
  reflexivity.
Defined.

Lemma baseline_hits_are_counted_sample :
  UnifiedModelCache._method_to_model (fst Sample.registered)
    !! getattr (baseline_method Sample.runner_M) "VFI_HD_GRID" = Some "M_bundle_p0-1"
  /\ Obs.live_entry (fst Sample.registered) (snd Sample.registered) "M_bundle_p0-1"
     = Some 0
  /\ default 0%Z
       (UnifiedModelCache._access_count
          (fst (foldl (fun s xr =>
                         snd (UnifiedModelCache.get_reference_model Sample.path_resolves
                                Sample.loader_good Sample.runner_M (fst xr) (snd xr) s))
                  (fst Sample.registered, snd Sample.registered)
                  [(Sample.x0, None); (Sample.x1, None)]))
        !! "M_bundle_p0-1")
     = (default 0 (UnifiedModelCache._access_count (fst Sample.registered)
                     !! "M_bundle_p0-1") + Z.of_nat 2)%Z.
Proof.
  assert (H1 : UnifiedModelCache._method_to_model (fst Sample.registered)
                 !! getattr (baseline_method Sample.runner_M) "VFI_HD_GRID"
               = Some "M_bundle_p0-1") by (vm_compute; reflexivity).
  assert (H2 : Obs.live_entry (fst Sample.registered) (snd Sample.registered)
                 "M_bundle_p0-1" = Some 0) by (vm_compute; reflexivity).
  split; [exact H1 |]. split; [exact H2 |].
  exact (proj1 (baseline_hits_are_counted Sample.path_resolves Sample.loader_good
                  Sample.runner_M (fst Sample.registered) (snd Sample.registered)
                  "M_bundle_p0-1" 0 [(Sample.x0, None); (Sample.x1, None)] H1 H2)).
Defined.

Lemma registered_model_found_by_path_sample :
  heap Sample2.world_pathed !! 0 = Some Sample2.pathed_model
  /\ UnifiedModelCache.model_id_of "M" (Some Sample2.pathed_model) = "/bundles/ref"
  /\ Sample.path_resolves Sample.runner_default Sample.x0 = Some "/bundles/ref"
  /\ Obs.baseline_entry UnifiedModelCache.__init__ Sample2.world_pathed
       Sample.runner_default = None
  /\ fst (UnifiedModelCache.get_reference_model Sample.path_resolves Sample.loader_good
            Sample.runner_default Sample.x0 None
            (snd (UnifiedModelCache.register_method_model "M" 0 (Some [0; 1]%Z)
                    (UnifiedModelCache.__init__, Sample2.world_pathed))))
     = Ret (Some 0)
  /\ loader_calls
       (snd (snd (UnifiedModelCache.get_reference_model Sample.path_resolves
                    Sample.loader_good Sample.runner_default Sample.x0 None
                    (snd (UnifiedModelCache.register_method_model "M" 0 (Some [0; 1]%Z)
                            (UnifiedModelCache.__init__, Sample2.world_pathed))))))
     = [].
Proof.
  split; [reflexivity |]. split; [reflexivity |]. split; [reflexivity |].
  split; [reflexivity |].
  apply (registered_model_found_by_path Sample.path_resolves Sample.loader_good
           "M" 0 (Some [0; 1]%Z) Sample.runner_default Sample.x0 None
           UnifiedModelCache.__init__ Sample2.world_pathed Sample2.pathed_model
           "/bundles/ref");
    [reflexivity | reflexivity | left; reflexivity | reflexivity | reflexivity].
Defined.

(** ** More on the trimmer *)

Section TrimmerMore.
Import ReferenceModelCache Trim Shape.

(** *** Structure *)

Lemma cleanup_stage_skeleton (stage : Stage) :
  stage_skeleton (snd (cleanup_stage stage)) = stage_skeleton stage.
Proof.
  unfold cleanup_stage, stage_skeleton.
  destruct (perches stage) as [ps|] eqn:E; simpl; [| now rewrite E].
  pose proof (for_each_preserves (@fst string Perch) (on_value cleanup_perch)) as H.
  specialize (H (fun kv => match cleanup_perch (snd kv) as r
                                 return fst (snd (let '(r0, a') := r in (r0, (fst kv, a'))))
                                        = fst kv
                           with (r0, a') => eq_refl end) ps).
  destruct (for_each (on_value cleanup_perch) ps) as [r ps']. simpl in *.
  now rewrite H.
Qed.

Lemma cleanup_period_skeleton (period : Period) :
  period_skeleton (snd (cleanup_period period)) = period_skeleton period.
Proof.
  unfold cleanup_period, period_skeleton.
  destruct (stages period) as [ss|] eqn:E; simpl; [| now rewrite E].
  pose proof (for_each_preserves
                (fun kv : string * Stage => (fst kv, stage_skeleton (snd kv)))
                (on_value cleanup_stage)) as H.
  assert (Hb : forall a : string * Stage,
             (fst (snd (on_value cleanup_stage a)),
              stage_skeleton (snd (snd (on_value cleanup_stage a))))
             = (fst a, stage_skeleton (snd a))).
  { intros [k st]. unfold on_value. simpl.
    pose proof (cleanup_stage_skeleton st) as Hs.
    destruct (cleanup_stage st) as [r st']. simpl in *. now rewrite Hs. }
  specialize (H Hb ss).
  destruct (for_each (on_value cleanup_stage) ss) as [r ss']. simpl in *.
  now rewrite H.
Qed.

Lemma cleanup_model_skeleton (model : Model) :
  model_skeleton (snd (cleanup_model model)) = model_skeleton model.
Proof.
  unfold cleanup_model, model_skeleton.
  destruct (periods_list model) as [ps|] eqn:E; simpl; [| now rewrite E].
  pose proof (for_each_preserves period_skeleton cleanup_period
                cleanup_period_skeleton ps) as H.
  destruct (for_each cleanup_period ps) as [r ps']. simpl in *. now rewrite H.
Qed.

(** X16: the only exceptions [_cleanup_model_memory] lets out are those
    not derived from [Exception].  For every live model it returns normally,
    unless the first exception that an attribute test on a solution object
    lets through is a [KeyboardInterrupt], a [SystemExit] or the like, which
    it passes on to the caller.  Either way it leaves the cache object
    alone, and the model is still alive afterwards, with the same bundle
    paths, the same periods, stage names and perch names, and the same
    policy arrays. *)
Theorem cleanup_passes_on_base_exceptions_only (c : t) (w : World) (l : loc) (m : Model) :
  heap w !! l = Some m ->
  let r := _cleanup_model_memory (Some l) (c, w) in
  fst r = match model_raises m with
          | Some e => if is_exception e then Ret tt else Raise e
          | None => Ret tt
          end
  /\ fst (snd r) = c
  /\ exists m',
       heap (snd (snd r)) !! l = Some m'
       /\ model_skeleton m' = model_skeleton m
       /\ map perch_policy (perches_of_model m') = map perch_policy (perches_of_model m).
Proof.
  intros Hl. cbv zeta.
  pose proof (_cleanup_model_memory_heap c w l m Hl) as Hheap.
  rewrite (_cleanup_model_memory_spec c w l m Hl) in *.
  pose proof (cleanup_model_skeleton m) as Hs.
  pose proof (cleanup_model_policy m) as Hp.
  pose proof (cleanup_model_outcome m) as Ho.
  destruct (cleanup_model m) as [[u|e] m']; simpl in Ho, Hs, Hp, Hheap;
    destruct (model_raises m) as [e0|]; try discriminate Ho.
  - split; [reflexivity |]. split; [reflexivity |]. exists m'. now split.
  - injection Ho as ->. destruct (is_exception e0); simpl;
      (split; [reflexivity |]; split; [reflexivity |]; exists m'; now split).
Qed.

(** *** Idempotence *)

Lemma for_each_idem {A} (body : M A unit) :
  (forall a u a', body a = (Ret u, a') -> body a' = (Ret tt, a')) ->
  forall l u l', for_each body l = (Ret u, l') -> for_each body l' = (Ret tt, l').
Proof.
  intros Hbody. induction l as [|a l IH]; intros u l' H; simpl in H.
  - injection H as _ <-. reflexivity.
  - destruct (body a) as [[u0|e] a0] eqn:Ea; [| discriminate H].
    destruct (for_each body l) as [r l0] eqn:El. injection H as -> <-.
    simpl. rewrite (Hbody a u0 a0 Ea). now rewrite (IH u l0 eq_refl).
Qed.

Lemma on_value_idem {K A} (body : M A unit) :
  (forall a u a', body a = (Ret u, a') -> body a' = (Ret tt, a')) ->
  forall (kv : K * A) u kv',
    on_value body kv = (Ret u, kv') -> on_value body kv' = (Ret tt, kv').
Proof.
  intros Hbody [k a] u kv'. unfold on_value. simpl.
  destruct (body a) as [r a'] eqn:Ea. intros [= -> <-]. simpl.
  now rewrite (Hbody a u a' Ea).
Qed.

Lemma cleanup_stage_idem (s : Stage) u s' :
  cleanup_stage s = (Ret u, s') -> cleanup_stage s' = (Ret tt, s').
Proof.
  unfold cleanup_stage. destruct (perches s) as [ps|] eqn:E.
  - destruct (for_each (on_value cleanup_perch) ps) as [r ps'] eqn:Ef.
    intros [= -> <-]. simpl.
    now rewrite (for_each_idem _ (on_value_idem _ cleanup_perch_idem) ps u ps' Ef).
  - intros [= <- <-]. now rewrite E.
Qed.

Lemma cleanup_period_idem (p : Period) u p' :
  cleanup_period p = (Ret u, p') -> cleanup_period p' = (Ret tt, p').
Proof.
  unfold cleanup_period. destruct (stages p) as [ss|] eqn:E.
  - destruct (for_each (on_value cleanup_stage) ss) as [r ss'] eqn:Ef.
    intros [= -> <-]. simpl.
    now rewrite (for_each_idem _ (on_value_idem _ cleanup_stage_idem) ss u ss' Ef).
  - intros [= <- <-]. now rewrite E.
Qed.

Lemma cleanup_model_idem (m : Model) u m' :
  cleanup_model m = (Ret u, m') -> cleanup_model m' = (Ret tt, m').
Proof.
  unfold cleanup_model. destruct (periods_list m) as [ps|] eqn:E.
  - destruct (for_each cleanup_period ps) as [r ps'] eqn:Ef.
    intros [= -> <-]. simpl.
    now rewrite (for_each_idem _ cleanup_period_idem ps u ps' Ef).
  - intros [= <- <-]. now rewrite E.
Qed.

(** X17: trimming is idempotent.  When a first pass over a model went
    through without an exception, a second pass returns without a warning
    and leaves the model exactly as the first pass left it. *)
Theorem cleanup_twice_is_cleanup_once (c : t) (w : World) (l : loc) (m : Model) :
  heap w !! l = Some m ->
  conforming m = true ->
  let s1 := snd (_cleanup_model_memory (Some l) (c, w)) in
  let r2 := _cleanup_model_memory (Some l) s1 in
  fst r2 = Ret tt
  /\ heap (snd (snd r2)) !! l = heap (snd s1) !! l
  /\ log (snd (snd r2)) = log w.
Proof.
  intros Hl Hc. cbv zeta. rewrite (_cleanup_model_memory_spec c w l m Hl).
  pose proof (cleanup_model_flat m) as Hflat.
  rewrite (for_each_well_behaved _ Hc) in Hflat.
  destruct (cleanup_model m) as [r m'] eqn:E. simpl in Hflat.
  injection Hflat as <- _. cbn [fst snd].
  rewrite (_cleanup_model_memory_spec c _ l m' (heap_after_collect _ w l m')).
  rewrite (cleanup_model_idem m tt m' E). cbn [fst snd].
  split; [reflexivity |]. split; [| reflexivity].
  now rewrite !heap_after_collect.
Qed.

End TrimmerMore.

(** An interrupt from the keyboard during the walk goes on to the caller;
    a [RuntimeError] does not. *)
Lemma cleanup_passes_on_base_exceptions_only_sample :
  heap (Sample.world_of Sample2.interrupted_model) !! 0 = Some Sample2.interrupted_model
  /\ Trim.model_raises Sample2.interrupted_model = Some (BaseError "KeyboardInterrupt" "")
  /\ fst (ReferenceModelCache._cleanup_model_memory (Some 0)
            (ReferenceModelCache.__init__, Sample.world_of Sample2.interrupted_model))
     = Raise (BaseError "KeyboardInterrupt" "")
  /\ exists m',
       heap (snd (snd (ReferenceModelCache._cleanup_model_memory (Some 0)
                         (ReferenceModelCache.__init__,
                          Sample.world_of Sample2.interrupted_model)))) !! 0 = Some m'
       /\ Shape.model_skeleton m' = Shape.model_skeleton Sample2.interrupted_model
       /\ map Trim.perch_policy (Trim.perches_of_model m')
          = map Trim.perch_policy (Trim.perches_of_model Sample2.interrupted_model).
Proof.
  split; [reflexivity |]. split; [reflexivity |].
  destruct (cleanup_passes_on_base_exceptions_only ReferenceModelCache.__init__
              (Sample.world_of Sample2.interrupted_model) 0 Sample2.interrupted_model
              eq_refl)
    as (H1 & _ & H2).
  split; [exact H1 | exact H2].
Defined.

Lemma cleanup_twice_is_cleanup_once_sample :
  heap (Sample.world_of Sample.good_model) !! 0 = Some Sample.good_model
  /\ Trim.conforming Sample.good_model = true
  /\ fst (ReferenceModelCache._cleanup_model_memory (Some 0)
            (snd (ReferenceModelCache._cleanup_model_memory (Some 0)
                    (ReferenceModelCache.__init__, Sample.world_of Sample.good_model))))
     = Ret tt.
Proof.
  split; [reflexivity |]. split; [reflexivity |].
  exact (proj1 (cleanup_twice_is_cleanup_once ReferenceModelCache.__init__
                  (Sample.world_of Sample.good_model) 0 Sample.good_model
                  eq_refl eq_refl)).
Defined.

(** ** Edges of registration and invalidation *)

Section Edges.
Import UnifiedModelCache.
Variable ref_bundle_path : Runner -> ndarray -> option string.
Variable load_reference_model :
  Runner -> ndarray -> Requirement -> outcome (option Model).

Local Abbreviation get_reference_model :=
  (UnifiedModelCache.get_reference_model ref_bundle_path load_reference_model).

(** The decimal form of an integer has only digits and a sign in it. *)
Lemma no_underscore_app (a b : string) :
  Obs.no_underscore (a +:+ b) = Obs.no_underscore a && Obs.no_underscore b.
Proof.
  induction a as [|ch a IH]; [reflexivity |].
  change (Obs.no_underscore (String ch (a +:+ b))
          = Obs.no_underscore (String ch a) && Obs.no_underscore b).
  simpl. now rewrite IH, andb_assoc.
Qed.

Lemma no_underscore_uint (d : Decimal.uint) :
  Obs.no_underscore (NilEmpty.string_of_uint d) = true.
Proof. induction d; simpl; auto. Qed.

Lemma no_underscore_str_int (z : Z) : Obs.no_underscore (str_int z) = true.
Proof.
  unfold str_int, NilZero.string_of_int, NilZero.string_of_uint.
  destruct (Z.to_int z) as [d|d]; destruct d; simpl; auto using no_underscore_uint.
Qed.

Lemma no_underscore_str_ints (l : list Z) :
  forallb Obs.no_underscore (map str_int l) = true.
Proof.
  induction l as [|z zs IH]; [reflexivity |].
  cbn [map forallb]. now rewrite no_underscore_str_int.
Qed.

Lemma no_underscore_join (parts : list string) :
  forallb Obs.no_underscore parts = true -> Obs.no_underscore (join "-" parts) = true.
Proof.
  unfold join. induction parts as [|a [|b parts] IH]; simpl; intros H.
  - reflexivity.
  - now rewrite andb_true_r in H.
  - apply andb_prop in H as [Ha H].
    change (Obs.no_underscore (a +:+ "-" +:+ String.concat "-" (b :: parts)) = true).
    rewrite !no_underscore_app, Ha. simpl. exact (IH H).
Qed.

(** The period-scoped key of a bundle path is never its superset key, whatever
    the periods are. *)
Lemma period_key_is_not_superset_key (p : string) (periods : option (list Z)) :
  get_model_cache_key p periods <> superset_key_of p.
Proof.
  rewrite superset_key_of_eq. unfold get_model_cache_key.
  destruct periods as [ps|]; intros H; apply append_cancel_l in H;
    [| discriminate H].
  assert (Hj : Obs.no_underscore (join "-" (map str_int (sorted_ints ps))) = true).
  { apply no_underscore_join, no_underscore_str_ints. }
  change "_p0-1_superset_p0-1" with ("_p" +:+ "0-1_superset_p0-1") in H.
  apply append_cancel_l in H. rewrite H in Hj. discriminate Hj.
Qed.

(** X18: the superset alias is written only for the period list [[0, 1]]
    as given, or for none.  For any other list, such as [[1, 0]] whose
    period-scoped key is that of [[0, 1]], registration writes one weak
    reference, under the period-scoped key, which is not the superset key of
    the model's path.  So, in a cache that held no live entry under that
    superset key and no registration for the runner's baseline method (a
    method other than the one registered), a lookup after the registration,
    by a runner whose bundle path is the model's path, does not find the
    registered model: it invokes the loader, and returns the new model the
    loader gives. *)
Theorem no_alias_for_other_period_lists method model periods runner x rq c w mv p mv' :
  heap w !! model = Some mv ->
  model_id_of method (Some mv) = p ->
  periods <> Some [0; 1]%Z ->
  periods <> None ->
  ref_bundle_path runner x = Some p ->
  getattr (baseline_method runner) "VFI_HD_GRID" <> method ->
  _method_to_model c !! getattr (baseline_method runner) "VFI_HD_GRID" = None ->
  Obs.live_entry c w (superset_key_of p) = None ->
  load_reference_model runner x superset_requirements = Ret (Some mv') ->
  let s1 := snd (register_method_model method model periods (c, w)) in
  _cache (fst s1) = <[get_model_cache_key p periods := model]> (_cache c)
  /\ get_model_cache_key p periods <> superset_key_of p
  /\ fst (get_reference_model runner x rq s1) = Ret (Some (next_loc (snd s1)))
  /\ loader_invocations (snd (snd (get_reference_model runner x rq s1)))
     = loader_invocations w + 1.
Proof.
  intros Hheap Hid Hne1 Hne2 Hp Hbm Hnone Hlive Hl. cbv zeta.
  pose proof (period_key_is_not_superset_key p periods) as Hkeys.
  pose proof (register_method_model_state method model periods c w) as H.
  cbv zeta in H. rewrite Hheap, Hid in H.
  destruct (register_method_model method model periods (c, w)) as [res [c1 w1]].
  cbn [fst snd] in *. destruct H as (_ & Hcache & _ & _ & Hmtm & Hh & Hcalls).
  rewrite (bool_decide_eq_false_2 _ Hne1), (bool_decide_eq_false_2 _ Hne2) in Hcache.
  simpl in Hcache. split; [exact Hcache |]. split; [exact Hkeys |].
  assert (Hb1 : Obs.baseline_entry c1 w1 runner = None).
  { unfold Obs.baseline_entry. rewrite Hmtm, lookup_insert_ne by congruence.
    now rewrite Hnone. }
  assert (Hm1 : Obs.live_entry c1 w1 (superset_key_of p) = None).
  { unfold Obs.live_entry, deref in *. rewrite Hcache, Hh.
    now rewrite lookup_insert_ne by exact Hkeys. }
  rewrite (get_reference_model_loads ref_bundle_path load_reference_model
             runner x rq c1 w1 p mv' Hb1 Hp Hm1 Hl).
  cbn [fst snd]. split; [reflexivity |].
  unfold loader_invocations. simpl. rewrite Hcalls. lia.
Qed.

(** X19: after [clear] nothing is served from the cache: whatever the state
    before, the next lookup, for any runner and parameter vector, invokes
    the loader. *)
Theorem lookup_after_clear_invokes_loader runner x rq c w :
  let s1 := snd (clear (c, w)) in
  loader_invocations (snd (snd (get_reference_model runner x rq s1)))
  = loader_invocations w + 1.
Proof.
  cbv zeta.
  assert (Hs : exists w1, snd (clear (c, w)) = (__init__, w1)
                          /\ loader_calls w1 = loader_calls w)
    by (eexists; split; reflexivity).
  destruct Hs as (w1 & -> & Hc).
  assert (Hb : Obs.baseline_entry __init__ w1 runner = None) by reflexivity.
  assert (Hm : forall k, Obs.live_entry __init__ w1 k = None) by reflexivity.
  assert (Hpe : Obs.path_entry ref_bundle_path runner x __init__ w1 = None)
    by (unfold Obs.path_entry; now destruct (ref_bundle_path runner x)).
  destruct (load_reference_model runner x superset_requirements) as [[mv|]|e] eqn:El.
  - destruct (ref_bundle_path runner x) as [p|] eqn:Hp.
    + rewrite (get_reference_model_loads ref_bundle_path load_reference_model
                 runner x rq __init__ w1 p mv Hb Hp (Hm _) El).
      unfold loader_invocations. simpl. rewrite Hc. lia.
    + rewrite (get_reference_model_loads_unkeyed ref_bundle_path load_reference_model
                 runner x rq __init__ w1 mv Hb Hp El).
      unfold loader_invocations. simpl. rewrite Hc. lia.
  - rewrite (get_reference_model_no_model ref_bundle_path load_reference_model
               runner x rq __init__ w1 Hb Hpe El).
    unfold loader_invocations. simpl. rewrite Hc. lia.
  - rewrite (get_reference_model_loader_raises ref_bundle_path load_reference_model
               runner x rq __init__ w1 e Hb Hpe El).
    unfold loader_invocations. simpl. rewrite Hc. lia.
Qed.

End Edges.

Lemma no_alias_for_other_period_lists_sample :
  heap Sample2.world_pathed !! 0 = Some Sample2.pathed_model
  /\ UnifiedModelCache.model_id_of "M" (Some Sample2.pathed_model) = "/bundles/ref"
  /\ Some [1; 0]%Z <> Some [0; 1]%Z
  /\ UnifiedModelCache.get_model_cache_key "/bundles/ref" (Some [1; 0]%Z)
     = UnifiedModelCache.get_model_cache_key "/bundles/ref" (Some [0; 1]%Z)
  /\ fst (UnifiedModelCache.get_reference_model Sample.path_resolves Sample.loader_good
            Sample.runner_default Sample.x0 None
            (snd (UnifiedModelCache.register_method_model "M" 0 (Some [1; 0]%Z)
                    (UnifiedModelCache.__init__, Sample2.world_pathed))))
     = Ret (Some 1)
  /\ loader_invocations
       (snd (snd (UnifiedModelCache.get_reference_model Sample.path_resolves
                    Sample.loader_good Sample.runner_default Sample.x0 None
                    (snd (UnifiedModelCache.register_method_model "M" 0 (Some [1; 0]%Z)
                            (UnifiedModelCache.__init__, Sample2.world_pathed))))))
     = 1.
Proof.
  assert (H1 : Some [1; 0]%Z <> Some [0; 1]%Z) by discriminate.
  assert (H2 : Some [1; 0]%Z <> (None : option (list Z))) by discriminate.
  assert (H4 : getattr (baseline_method Sample.runner_default) "VFI_HD_GRID" <> "M")
    by (vm_compute; discriminate).
  split; [reflexivity |]. split; [reflexivity |]. split; [exact H1 |].
  split; [reflexivity |].
  destruct (no_alias_for_other_period_lists Sample.path_resolves Sample.loader_good
              "M" 0 (Some [1; 0]%Z) Sample.runner_default Sample.x0 None
              UnifiedModelCache.__init__ Sample2.world_pathed Sample2.pathed_model
              "/bundles/ref" Sample.good_model
              eq_refl eq_refl H1 H2 eq_refl H4 eq_refl eq_refl eq_refl)
    as (_ & _ & Ha & Hb).
  split; [exact Ha | exact Hb].
Defined.

(** ** Release, invalidation and statistics in the reference cache *)

Section ReferenceRelease.
Import ReferenceModelCache.

Lemma reference_clear_strong_refs_frame (c : t) (w : World) :
  let r := clear_strong_refs (c, w) in
  fst r = Ret tt
  /\ fst (snd r) = {| _cache := _cache c; _strong_refs := ∅;
                      _access_count := _access_count c |}
  /\ heap (snd (snd r)) = filter (fun kv => kv.1 ∈ roots w) (heap w).
Proof.
  unfold clear_strong_refs, gc_collect_, gc_collect. run.
  match goal with |- context [foldl ?f (emit ?r w) ?l] =>
    destruct (foldl_emit_frame
                (fun kv : string * Z => (DEBUG, "  " +:+ fst kv +:+ ": accessed "
                                                +:+ str_int (snd kv) +:+ " times"))
                l (emit r w)) as (H1 & H2 & H3 & H4)
  end.
  simpl in *. rewrite H1, H3, referents_empty.
  repeat split. apply map_filter_ext. intros i x _. simpl. set_solver.
Qed.

(** X20: in the reference cache, [release_strong_references] brings the
    count of strong references to zero and leaves the number of cached
    entries and the access counts as they were; [clear_reference_cache]
    brings every statistic to zero; after either, exactly the models held
    outside the cache are still alive. *)
Theorem reference_cache_release_and_clear (c : t) (w : World) :
  let s1 := snd (release_strong_references (c, w)) in
  let s2 := snd (clear_reference_cache (c, w)) in
  fst (get_cache_stats s1)
    = Ret {| cached_models := size (_cache c); strong_refs := 0;
             access_counts := _access_count c |}
  /\ fst (get_cache_stats s2)
     = Ret {| cached_models := 0; strong_refs := 0; access_counts := ∅ |}
  /\ (forall l m, heap (snd s1) !! l = Some m <-> heap w !! l = Some m /\ l ∈ roots w)
  /\ (forall l m, heap (snd s2) !! l = Some m <-> heap w !! l = Some m /\ l ∈ roots w).
Proof.
  cbv zeta. unfold release_strong_references, clear_reference_cache.
  destruct (reference_clear_strong_refs_frame c w) as (_ & H2 & H3).
  destruct (clear_strong_refs (c, w)) as [res [c1 w1]]. cbn [fst snd] in *. subst c1.
  split; [reflexivity |]. split; [reflexivity |]. split.
  - intros l m. rewrite H3, map_lookup_filter_Some. simpl. tauto.
  - intros l m. unfold clear, gc_collect_, gc_collect. run.
    rewrite referents_empty, map_lookup_filter_Some. simpl. set_solver.
Qed.

End ReferenceRelease.

(** ** [reference_cache.get_cached_reference_model] *)

(** X21: the wrapper gives what the unified lookup gives, results and
    exceptions alike, and leaves the local cache alone; only an
    [ImportError] from inside the lookup is replaced, by the
    [AttributeError] with which [ReferenceModelCache.get] fails at its first
    statement: the fallback never returns a model.  Whatever the lookup did
    to the unified cache and to the world before it raised stays done. *)
Theorem wrapper_fallback_raises_attribute_error
    (ref_bundle_path : Runner -> ndarray -> option string)
    (load_reference_model : Runner -> ndarray -> Requirement -> outcome (option Model))
    (pickle_md5_hexdigest : ndarray -> string)
    (runner : Runner) (x : ndarray) (rq : option Requirement)
    (g : Globals) (w : World) :
  let r := UnifiedModelCache.get_cached_reference_model ref_bundle_path
             load_reference_model runner x rq (_unified_cache g, w) in
  reference_cache_get_cached_reference_model ref_bundle_path load_reference_model
    pickle_md5_hexdigest runner x rq (g, w)
  = (match fst r with
     | Raise (ImportError _) =>
         Raise (AttributeError
           "'ReferenceModelCache' object has no attribute '_get_superset_requirements'")
     | res => res
     end,
     ({| _reference_cache := _reference_cache g; _unified_cache := fst (snd r) |},
      snd (snd r))).
Proof.
  cbv zeta. unfold reference_cache_get_cached_reference_model, try_except,
    on_unified_cache, on_reference_cache. cbn [fst snd].
  destruct (UnifiedModelCache.get_cached_reference_model ref_bundle_path
              load_reference_model runner x rq (_unified_cache g, w))
    as [[res|e] [u' w']]; cbn [fst snd]; [reflexivity |].
  destruct e; reflexivity.
Qed.

(** When the loader fails for want of a module, the caller of the wrapper
    sees an [AttributeError]; the loader has been invoked once. *)
Lemma wrapper_fallback_raises_attribute_error_sample :
  let r := reference_cache_get_cached_reference_model Sample.path_resolves
             Sample2.loader_import_error Sample.digest Sample.runner_default Sample.x0
             None
             ({| _reference_cache := ReferenceModelCache.__init__;
                 _unified_cache := UnifiedModelCache.__init__ |}, Sample.world0) in
  fst r = Raise (AttributeError
            "'ReferenceModelCache' object has no attribute '_get_superset_requirements'")
  /\ loader_invocations (snd (snd r)) = 1.
Proof. cbv zeta. split; reflexivity. Qed.
